(** * AShareData: the SQL reader, its panels and the point-in-time build

    A shallow embedding of [AShareData/SQLDBReader.py]: the schema check
    [_check_args_and_get_primary_keys], the long-to-wide reshape used by
    [get_factor], the calendar conformance [_conform_df], the point-in-time
    loop of [get_financial_factor] and the level guard of [get_industry].

    Conventions of the embedding.
    - A date or timestamp is the integer YYYYMMDD, so that the order of [Z]
      is the chronological order and the month is [(d / 100) mod 100].
    - A cell of a frame is an [option value]; [None] is pandas' missing
      value (NaN / NaT / NULL).  Numbers are only carried around by the
      reader, never computed on, and are represented by integers.
    - A Python exception is a value of [exn]; a call is a computation in
      [M], which records the queries sent to the engine and either returns
      or raises.
    - Python dictionaries are [gmap]s, Python lists are lists.
    - [Unmodelled] marks the few places where a function leaves the frames
      represented here (an axis with several levels, the earliest label of
      an empty frame); no statement below rests on what happens there. *)

From stdpp Require Import gmap strings list fin_maps sorting pretty.
From Stdlib Require Import ZArith.

Local Open Scope string_scope.
Local Open Scope list_scope.
Local Open Scope Z_scope.

(** ** Values, exceptions and the reader monad *)

Abbreviation date := Z (only parsing).

Inductive value :=
| Num (x : Z)
| Text (s : string).

#[global] Instance value_eq_dec : EqDecision value.
Proof. solve_decision. Defined.

Inductive exn :=
| AssertionError (msg : string)
| KeyError (key : string)
| AttributeError (name : string)
| ValueError (msg : string)
| RangeError
| Unmodelled (what : string).

Inductive result (A : Type) :=
| OK (a : A)
| Raise (e : exn).
Arguments OK {A} a.
Arguments Raise {A} e.

(** What the engine is asked: [meta.reflect()] reads the schema, and
    [pd.read_sql_table] reads the rows of a table. *)
Inductive event :=
| Reflect
| ReadTable (table_name : string) (query_columns : list string).

Definition M (A : Type) : Type := list event * result A.

Definition ret {A} (a : A) : M A := ([], OK a).
Definition raise {A} (e : exn) : M A := ([], Raise e).
Definition emit (ev : event) : M unit := ([ev], OK tt).
Definition lift {A} (r : result A) : M A := ([], r).

Definition bind {A B} (m : M A) (k : A → M B) : M B :=
  match m with
  | (log, Raise e) => (log, Raise e)
  | (log, OK a) => let '(log', r) := k a in (log ++ log', r)
  end.

Notation "'let*' x := m 'in' k" := (bind m (fun x => k))
  (at level 10, x name, m at level 100, k at level 200).
Notation "m >> k" := (bind m (fun _ => k))
  (at level 100, k at level 200, right associativity).

Definition queries {A} (m : M A) : list event := fst m.
Definition outcome {A} (m : M A) : result A := snd m.

(** [assert cond, msg] *)
Definition assert (cond : bool) (msg : string) : M unit :=
  if cond then ret tt else raise (AssertionError msg).

(** ** The store behind the engine *)

(** A stored row: the three canonical key columns and the remaining
    columns by name (a column without an entry is NULL).  A table that
    lacks one of the key columns simply never has that field read. *)
Record row := {
  DateTime : date;
  ID : string;
  report_period : date;          (* column 报告期 *)
  fields : gmap string value
}.

Record table := {
  tbl_columns : list string;     (* [it.name for it in meta.tables[t].c] *)
  tbl_rows : list row
}.

Record reader := {
  tables : gmap string table;    (* meta.tables *)
  calendar : list date;          (* utils.get_calendar(self.engine) *)
  stocks : list string           (* utils.get_stocks(self.engine) *)
}.

Definition col_DateTime : string := "DateTime".
Definition col_ID : string := "ID".
Definition col_report_period : string := "报告期".

Definition canonical_keys : list string :=
  [col_DateTime; col_ID; col_report_period].

(** [x in l] for a list of strings. *)
Definition mem (x : string) (l : list string) : bool :=
  bool_decide (x ∈ l).

(** ** Schema validation: [_check_args_and_get_primary_keys] *)

Definition msg_no_table (table_name : string) : string :=
  "数据库中不存在表 " +:+ table_name.
Definition msg_no_column (table_name factor_name : string) : string :=
  "表 " +:+ table_name +:+ " 中不存在 " +:+ factor_name +:+ " 列".

Definition _check_args_and_get_primary_keys
    (self : reader) (table_name factor_name : string) : M (list string) :=
  emit Reflect >>
  match tables self !! table_name with
  | None => raise (AssertionError (msg_no_table table_name))
  | Some t =>
      let columns := tbl_columns t in
      assert (mem factor_name columns) (msg_no_column table_name factor_name) >>
      ret (List.filter (fun it => mem it columns) canonical_keys)
  end.

(** ** Frames

    A wide panel, as [unstack] produces it and [_conform_df] returns it:
    the column axis and, for every row, its label and its cells (one per
    column, in the order of the column axis). *)
Record Panel := {
  columns : list string;
  body : list (date * list (option value))
}.

Definition index (df : Panel) : list date := (body df).*1.

(** First entry of an association list under a key. *)
Fixpoint assoc {K A} `{EqDecision K} (k : K) (l : list (K * A)) : option A :=
  match l with
  | [] => None
  | (k', a) :: l' => if decide (k = k') then Some a else assoc k l'
  end.

(** The cell at a row label and a column label: [None] when the panel has
    no such row or column, [Some None] when the cell is missing. *)
Definition cell (df : Panel) (d : date) (c : string) : option (option value) :=
  r ← assoc d (body df); assoc c (zip (columns df) r).

Definition duplicate_axis : exn :=
  ValueError "cannot reindex on an axis with duplicate labels".

(** [df.reindex(target)]: rows in the order of [target]; a label the frame
    does not have gets a row of missing cells.  pandas refuses a frame
    whose own row labels repeat, unless the axis is already the target. *)
Definition reindex (target : list date) (df : Panel) : result Panel :=
  if decide (index df = target) then OK df
  else if decide (NoDup (index df)) then
    OK {| columns := columns df;
          body := (fun d => (d, default (replicate (length (columns df)) None)
                                        (assoc d (body df)))) <$> target |}
  else Raise duplicate_axis.

(** [df.reindex(target, axis=1)] *)
Definition reindex_columns (target : list string) (df : Panel) : result Panel :=
  if decide (columns df = target) then OK df
  else if decide (NoDup (columns df)) then
    OK {| columns := target;
          body := (fun '(d, r) =>
                     (d, (fun c => default None (assoc c (zip (columns df) r)))
                           <$> target)) <$> body df |}
  else Raise duplicate_axis.

(** [df.ffill()]: down every column, a missing cell takes the last
    non-missing cell above it. *)
Definition fill1 (above here : option value) : option value :=
  match here with
  | Some _ => here
  | None => above
  end.

Fixpoint fill_row (above here : list (option value)) : list (option value) :=
  match here, above with
  | [], _ => []
  | _, [] => here
  | h :: here', a :: above' => fill1 a h :: fill_row above' here'
  end.

Fixpoint ffill_from (above : list (option value))
    (b : list (date * list (option value))) : list (date * list (option value)) :=
  match b with
  | [] => []
  | (d, r) :: b' => let r' := fill_row above r in (d, r') :: ffill_from r' b'
  end.

Definition forward_fill (df : Panel) : Panel :=
  {| columns := columns df; body := ffill_from [] (body df) |}.

Fixpoint is_monotonic_increasing (l : list date) : bool :=
  match l with
  | x :: ((y :: _) as l') => (x <=? y) && is_monotonic_increasing l'
  | _ => true
  end.

Fixpoint is_monotonic_decreasing (l : list date) : bool :=
  match l with
  | x :: ((y :: _) as l') => (y <=? x) && is_monotonic_decreasing l'
  | _ => true
  end.

Fixpoint drop_until {A} (P : A → bool) (l : list A) : list A :=
  match l with
  | [] => []
  | x :: l' => if P x then l else drop_until P l'
  end.

(** [df.loc[start_date:, :]]: a label slice.  On an ascending axis it
    keeps the rows whose label is not before [start_date], on a descending
    axis those whose label is not after it; on an unsorted axis the label
    has to be there, once, and the rows from it on are kept. *)
Definition loc_from (start_date : option date) (df : Panel) : result Panel :=
  match start_date with
  | None => OK df
  | Some s =>
      let keep b := {| columns := columns df; body := b |} in
      if is_monotonic_increasing (index df) then
        OK (keep (List.filter (fun r => s <=? r.1) (body df)))
      else if is_monotonic_decreasing (index df) then
        OK (keep (List.filter (fun r => r.1 <=? s) (body df)))
      else if decide (length (List.filter (Z.eqb s) (index df)) = 1%nat) then
        OK (keep (drop_until (fun r => r.1 =? s) (body df)))
      else Raise (KeyError (pretty s))
  end.

(** [df.index.get_level_values(0).min()].  An empty axis has no minimum:
    pandas answers NaT, and what [utils.select_dates] makes of NaT is not
    in the sources, so the model stops there. *)
Definition index_min (df : Panel) : result date :=
  match index df with
  | [] => Raise (Unmodelled "earliest label of an empty frame")
  | d :: l => OK (foldr Z.min d l)
  end.

(** ** The trading calendar *)

Definition in_window (start_date end_date : option date) (d : date) : bool :=
  match start_date with Some s => s <=? d | None => true end &&
  match end_date with Some e => d <=? e | None => true end.

(** Modelled from the spec: [utils.select_dates] is not among the sources.
    Section 4.1 gives its contract as [dates_in_range]: the trading dates
    between the two bounds, both inclusive when present and open-ended when
    omitted, in calendar order; [RangeError] if start > end. *)
Definition select_dates (date_list : list date)
    (start_date end_date : option date) : result (list date) :=
  match start_date, end_date with
  | Some s, Some e =>
      if e <? s then Raise RangeError
      else OK (List.filter (in_window start_date end_date) date_list)
  | _, _ => OK (List.filter (in_window start_date end_date) date_list)
  end.

(** [date_list[:-1]] *)
Definition all_but_last {A} (l : list A) : list A := removelast l.

(** ** Conformance: [_conform_df] *)

Definition rbind {A B} (r : result A) (k : A → result B) : result B :=
  match r with
  | OK a => k a
  | Raise e => Raise e
  end.

Notation "'let+' x := r 'in' k" := (rbind r (fun x => k))
  (at level 10, x name, r at level 100, k at level 200).

(** [if not stock_list: stock_list = self.stocks]: an omitted list and an
    empty one are both falsy. *)
Definition universe (self : reader) (stock_list : option (list string)) : list string :=
  match stock_list with
  | None | Some [] => stocks self
  | Some l => l
  end.

(** [self.calendar] and [self.stocks] are cached properties; they are taken
    as loaded. *)
Definition _conform_df (self : reader) (df : Panel) (ffill : bool)
    (start_date end_date : option date)
    (stock_list : option (list string)) : result Panel :=
  let+ df :=
    (if ffill then
       let+ first_timestamp := index_min df in
       let+ date_list := select_dates (calendar self) (Some first_timestamp) end_date in
       let+ df := reindex (all_but_last date_list) df in
       let df := forward_fill df in
       loc_from start_date df
     else
       let+ date_list := select_dates (calendar self) start_date end_date in
       reindex (all_but_last date_list) df) in
  let stock_list := universe self stock_list in
  reindex_columns stock_list df.

(** ** Long to wide: [unstack] *)

(** A long series keyed by (DateTime, ID). *)
Abbreviation series := (list (date * string * option value)) (only parsing).

Definition string_le (s1 s2 : string) : Prop := String.leb s1 s2 = true.

#[global] Instance string_le_dec s1 s2 : Decision (string_le s1 s2).
Proof. unfold string_le. apply _. Defined.

Definition duplicate_entries : exn :=
  ValueError "Index contains duplicate entries, cannot reshape".

(** [s.unstack()] (for a one-column frame, followed by
    [droplevel(None, axis=1)]): the last key level becomes the column axis.
    Both axes come out sorted and without repetition; a key that occurs
    twice cannot be placed and pandas raises. *)
Definition unstack (s : series) : result Panel :=
  if decide (NoDup (s.*1)) then
    let idx := merge_sort Z.le (remove_dups ((s.*1).*1)) in
    let cols := merge_sort string_le (remove_dups ((s.*1).*2)) in
    OK {| columns := cols;
          body := (fun d => (d, (fun c => default None (assoc (d, c) s)) <$> cols))
                    <$> idx |}
  else Raise duplicate_entries.

(** ** Reading a table *)

(** [pd.read_sql_table(table_name, self.engine, columns=query_columns)] *)
Definition read_sql_table (self : reader) (table_name : string)
    (query_columns : list string) : M (list row) :=
  emit (ReadTable table_name query_columns) >>
  match tables self !! table_name with
  | None => raise (ValueError ("Table " +:+ table_name +:+ " not found"))
  | Some t =>
      match List.find (fun c => negb (mem c (tbl_columns t))) query_columns with
      | Some c => raise (KeyError c)
      | None => ret (tbl_rows t)
      end
  end.

(** [str.lower] on the ASCII letters; the other bytes (in particular those
    of CJK text) have no case. *)
Definition lower_ascii (c : Ascii.ascii) : Ascii.ascii :=
  let n := Ascii.nat_of_ascii c in
  if ((65 <=? n) && (n <=? 90))%nat then Ascii.ascii_of_nat (n + 32) else c.

Fixpoint lower (s : string) : string :=
  match s with
  | EmptyString => EmptyString
  | String c s' => String (lower_ascii c) (lower s')
  end.

(** ** [get_factor] *)

(** The column [factor_name] of the rows read, keyed by (DateTime, ID). *)
Definition long_series (factor_name : string) (data : list row) : series :=
  (fun r => (DateTime r, ID r, fields r !! factor_name)) <$> data.

Inductive frame :=
| Wide (df : Panel)
| Long (index_col : list string) (column : string) (data : list row).

(** The model follows the function on the tables keyed by exactly
    (DateTime, ID), where the unstacked frame is a date by security panel,
    and on the tables with at most one key column, whose frame is returned
    as read.  With any other key set the frame keeps a multi-level or
    non-date row axis, which [Panel] does not represent.
    [df.sort_index()] at line 50 discards its result, and [df.name] is an
    attribute beside the frame. *)
Definition get_factor (self : reader) (table_name factor_name : string)
    (ffill : bool) (start_date end_date : option date)
    (stock_list : option (list string)) : M frame :=
  let table_name := lower table_name in
  let* primary_keys := _check_args_and_get_primary_keys self table_name factor_name in
  let query_columns := primary_keys ++ [factor_name] in
  let* df := read_sql_table self table_name query_columns in
  if decide (2 ≤ length primary_keys)%nat then      (* isinstance(df.index, pd.MultiIndex) *)
    if decide (primary_keys = [col_DateTime; col_ID]) then
      let* df := lift (unstack (long_series factor_name df)) in
      let* df := lift (_conform_df self df ffill start_date end_date stock_list) in
      ret (Wide df)
    else raise (Unmodelled "frame with a multi-level row axis")
  else ret (Long primary_keys factor_name df).

(** ** Point in time: [get_financial_factor] *)

Definition month (d : date) : Z := (d / 100) mod 100.

(** One row of the frame handed to the aggregator: the index
    (DateTime, ID, 报告期) and the factor. *)
Record entry := {
  e_DateTime : date;
  e_ID : string;
  e_period : date;
  e_value : option value
}.

#[global] Instance entry_eq_dec : EqDecision entry.
Proof. solve_decision. Defined.

(** [GroupBy.last()] takes, column by column, the last entry of the group
    that is not missing. *)
Definition last_valid (l : list (option value)) : option value :=
  foldl (fun acc x => match x with Some _ => x | None => acc end) None l.

Definition group_of (p : date) (df : list row) : list row :=
  List.filter (fun r => report_period r =? p) df.

(** [df.groupby('报告期', as_index=False).last()] followed by
    [set_index(['DateTime', 'ID', '报告期'])]: one row per report period,
    the periods ascending. *)
Definition groupby_last (factor_name : string) (df : list row) : list entry :=
  omap (fun p =>
          let g := group_of p df in
          r ← last g;
          Some {| e_DateTime := DateTime r; e_ID := ID r; e_period := p;
                  e_value := last_valid ((fun r => fields r !! factor_name) <$> g) |})
       (merge_sort Z.le (remove_dups (report_period <$> df))).

Section PointInTime.
Variable factor_name : string.
(** The caller's aggregator, as a reduction: [agg_func s] is the cell that
    [each_date_data.apply({factor_name: agg_func})] leaves in the one row
    that line 82 labels (date, sec_id). *)
Variable agg_func : list entry → option value.

(** [id_data = data.loc[data.ID == sec_id, :]] *)
Definition id_data (data : list row) (sec_id : string) : list row :=
  List.filter (fun r => bool_decide (ID r = sec_id)) data.

(** [sorted(list(set(dates)))] *)
Definition as_of_dates (id_data : list row) : list date :=
  merge_sort Z.le (remove_dups (DateTime <$> id_data)).

(** [date_id_data = id_data.loc[data.DateTime <= date, :]] *)
Definition date_id_data (id_data : list row) (date : date) : list row :=
  List.filter (fun r => DateTime r <=? date) id_data.

(** The body of the inner loop: the scalar stored under (date, sec_id). *)
Definition output_data (data : list row) (sec_id : string) (date : date) : option value :=
  agg_func (groupby_last factor_name (date_id_data (id_data data sec_id) date)).

(** The securities the outer loop visits.  Python iterates a set, in no
    particular order; the order does not survive [unstack]. *)
Definition all_secs (data : list row) (stock_list : option (list string)) : list string :=
  let secs := remove_dups (ID <$> data) in
  match stock_list with
  | None | Some [] => secs
  | Some l => List.filter (fun s => mem s l) secs
  end.

(** The two nested loops: what [storage] holds, concatenated. *)
Definition storage (data : list row) (stock_list : option (list string))
    : list (date * string * option value) :=
  sec_id ← all_secs data stock_list;
  (fun date => (date, sec_id, output_data data sec_id date))
    <$> as_of_dates (id_data data sec_id).

(** [pd.concat(storage)] *)
Definition concat (storage : list (date * string * option value))
    : result (list (date * string * option value)) :=
  match storage with
  | [] => Raise (ValueError "No objects to concatenate")
  | _ => OK storage
  end.

(** A table that lacks a key column makes the function fail where the
    column is first touched: [x['报告期']] and [groupby('报告期')] raise
    KeyError, [data.ID] and [id_data.DateTime] raise AttributeError.
    [df.name] is an attribute beside the frame. *)
Definition get_financial_factor (self : reader) (table_name : string)
    (start_date end_date : option date)
    (stock_list : option (list string)) (yearly : bool) : M Panel :=
  let table_name := lower table_name in
  let* primary_keys := _check_args_and_get_primary_keys self table_name factor_name in
  let query_columns := primary_keys ++ [factor_name] in
  let* data := read_sql_table self table_name query_columns in
  let has c := mem c primary_keys in
  let* data :=
    (if yearly then
       if has col_report_period
       then ret (List.filter (fun x => month (report_period x) =? 12) data)
       else raise (KeyError col_report_period)
     else ret data) in
  (if has col_ID then ret tt else raise (AttributeError col_ID)) >>
  let* storage :=
    (match all_secs data stock_list with
     | [] => ret []
     | _ =>
         if negb (has col_DateTime) then raise (AttributeError col_DateTime)
         else if negb (has col_report_period) then raise (KeyError col_report_period)
         else ret (storage data stock_list)
     end) in
  let* df := lift (concat storage) in
  let* df := lift (unstack df) in
  lift (_conform_df self df false start_date end_date stock_list).
End PointInTime.

(** An aggregator: the value of the latest report period. *)
Definition latest (s : list entry) : option value :=
  r ← last s; e_value r.

(** ** Industry levels: [get_industry] *)

Definition msg_no_level (provider : string) (level : Z) : string :=
  provider +:+ "行业没有" +:+ pretty level +:+ "级".

Section Industry.
(** [AShareData.constants.INDUSTRY_LEVEL], which is not among the sources:
    the deepest level every provider defines. *)
Variable INDUSTRY_LEVEL : gmap string Z.
(** The loaded translation JSON (the bundled [industry.json] or the file
    at [translation_json_loc]): table, then fine category, then
    [level_N], to the coarse name. *)
Variable translation : gmap string (gmap string (gmap string string)).

(** [assert 0 < level <= INDUSTRY_LEVEL[provider], ...]: the chained
    comparison looks the provider up only once [0 < level] holds. *)
Definition check_level (provider : string) (level : Z) : M unit :=
  if 0 <? level then
    match INDUSTRY_LEVEL !! provider with
    | None => raise (KeyError provider)
    | Some top => assert (level <=? top) (msg_no_level provider level)
    end
  else raise (AssertionError (msg_no_level provider level)).

(** [{key: value[f'level_{level}'] for key, value in translation[table_name].items()}] *)
Definition new_translation (table_name : string) (level : Z) : M (gmap string string) :=
  let level_key := "level_" +:+ pretty level in
  match translation !! table_name with
  | None => raise (KeyError table_name)
  | Some tr =>
      if decide (map_Forall (fun _ v => is_Some (v !! level_key)) tr)
      then ret (omap (fun v => v !! level_key) tr)
      else raise (KeyError level_key)
  end.

(** [Series.map(dict)] on one cell *)
Definition map_cell (d : gmap string string) (c : option value) : option value :=
  match c with
  | Some (Text s) => Text <$> d !! s
  | _ => None
  end.

(** At the provider's own level the frame is unstacked with its column
    name still on the column axis; that two-level axis is outside
    [Panel]. *)
Definition get_industry (self : reader) (provider : string) (level : Z)
    (start_date end_date : option date)
    (stock_list : option (list string)) : M Panel :=
  check_level provider level >>
  let table_name := provider +:+ "行业" in
  let industry_col_name := "行业名称" in
  let primary_keys := [col_DateTime; col_ID] in
  let query_columns := primary_keys ++ [industry_col_name] in
  let* df := read_sql_table self table_name query_columns in
  if decide (Some level ≠ INDUSTRY_LEVEL !! provider) then
    let* new_translation := new_translation table_name level in
    let df := (fun '(k, c) => (k, map_cell new_translation c))
                <$> long_series industry_col_name df in
    let* df := lift (unstack df) in
    lift (_conform_df self df true start_date end_date stock_list)
  else raise (Unmodelled "frame with a two-level column axis").
End Industry.

(** * More of the reader, and its callers *)

(** ** [get_listed_stock] *)

Definition table_listing : string := "股票上市退市".
Definition col_status : string := "上市状态".

(** [data['上市状态'] == x] on one row *)
Definition status_is (x : Z) (r : row) : bool :=
  bool_decide (fields r !! col_status = Some (Num x)).

(** The table is read without a column list, so every column comes back
    and none is asked for by name; a column the table lacks is missed
    where it is first touched ([raw_data.DateTime], [data['上市状态']],
    [.loc[..., 'ID']]).  The default of [date] is fixed when the class is
    defined; the model takes the date as given. *)
Definition get_listed_stock (self : reader) (date : date) : M (list string) :=
  let* raw_data := read_sql_table self table_listing [] in
  let cols := default [] (tbl_columns <$> tables self !! table_listing) in
  (if mem col_DateTime cols then ret tt else raise (AttributeError col_DateTime)) >>
  let data := List.filter (fun r => DateTime r <=? date) raw_data in
  (if mem col_status cols then ret tt else raise (KeyError col_status)) >>
  (if mem col_ID cols then ret tt else raise (KeyError col_ID)) >>
  let listed := ID <$> List.filter (status_is 1) data in
  let delisted := ID <$> List.filter (status_is 0) data in
  ret (merge_sort string_le
         (remove_dups (List.filter (fun s => negb (mem s delisted)) listed))).

(** ** The index highlighter of [tools.py]: which columns are featured *)

(** A bound of a Python slice: a negative bound counts from the end, and
    a bound outside the list is clipped to it. *)
Definition slice_bound {A} (l : list A) (i : Z) : nat :=
  Z.to_nat (if i <? 0 then Z.max 0 (Z.of_nat (length l) + i)
            else Z.min i (Z.of_nat (length l))).

(** [l[:n]], [l[n:]] and [l[a:b]] *)
Definition slice_to {A} (n : Z) (l : list A) : list A := take (slice_bound l n) l.
Definition slice_from {A} (n : Z) (l : list A) : list A := drop (slice_bound l n) l.
Definition slice {A} (a b : Z) (l : list A) : list A :=
  drop (slice_bound l a) (take (slice_bound l b) l).

(** Line 57 of [featured_data]:
    [cols = ordered_index[:n] + ordered_index[-n:]], on the candidate
    indexes ordered by their cumulative return. *)
Definition featured_cols (ordered_index : list string) (n : Z) : list string :=
  slice_to n ordered_index ++ slice_from (- n) ordered_index.

(** A Python string, as the sequence of its code points. *)
Abbreviation ustr := (list Z) (only parsing).

(** '申万' *)
Definition shenwan : ustr := [30003; 19975].

(** [it.startswith(p)] *)
Definition startswith (p it : ustr) : bool := bool_decide (take (length p) it = p).

(** Line 80 of [summary]:
    [[it[2:-4] for it in set(self.industry_cache) if it.startswith('申万')]].
    The set is walked in the order of first occurrence; Python fixes no
    order. *)
Definition mentioned_industry (industry_cache : list ustr) : list ustr :=
  slice 2 (-4) <$> List.filter (startswith shenwan) (remove_dups industry_cache).

(** * Vocabulary of the statements *)

(** The names the specification gives to the two failed assertions. *)
Definition SchemaError_unknown_table (table_name : string) : exn :=
  AssertionError (msg_no_table table_name).
Definition SchemaError_unknown_column (table_name factor_name : string) : exn :=
  AssertionError (msg_no_column table_name factor_name).

Definition is_raise {A} (r : result A) : Prop :=
  match r with Raise _ => True | OK _ => False end.

Definition is_read (ev : event) : Prop :=
  match ev with ReadTable _ _ => True | Reflect => False end.

(** The trading calendar of the data model: strictly ascending. *)
Definition ascending (l : list date) : Prop := Sorted Z.lt l.

Definition not_before (start_date : option date) (d : date) : bool :=
  match start_date with Some s => s <=? d | None => true end.

(** The calendar window [_conform_df] resolves: from the earliest row of
    the frame when filling, from [start_date] otherwise. *)
Definition resolved_window (self : reader) (df : Panel) (ffill : bool)
    (start_date end_date : option date) : result (list date) :=
  if ffill then
    let+ first_timestamp := index_min df in
    select_dates (calendar self) (Some first_timestamp) end_date
  else select_dates (calendar self) start_date end_date.

(** The name the specification gives to pandas' refusal to reshape. *)
Definition DuplicateKeyError : exn := duplicate_entries.

(** The name the specification gives to the failed assertion of line 95. *)
Definition LevelError (provider : string) (level : Z) : exn :=
  AssertionError (msg_no_level provider level).

Definition is_assertion (e : exn) : Prop :=
  match e with AssertionError _ => True | _ => False end.

Definition demo_reader : reader :=
  {| tables := {[ "prices" := {| tbl_columns := ["DateTime"; "ID"; "close"];
                                 tbl_rows := [] |} ]};
     calendar := [20240101; 20240102; 20240103; 20240104];
     stocks := ["A"; "B"] |}.

Definition demo_panel : Panel :=
  {| columns := ["A"];
     body := [(20240101, [Some (Num 10)]); (20240103, [Some (Num 30)])] |}.

Definition demo_conformed : Panel :=
  {| columns := ["A"; "B"];
     body := [(20240102, [Some (Num 10); None]); (20240103, [Some (Num 30); None])] |}.

(** The rows the loops of [get_financial_factor] run over. *)
Definition yearly_rows (yearly : bool) (data : list row) : list row :=
  if yearly then List.filter (fun x => month (report_period x) =? 12) data
  else data.

(** What [get_financial_factor] returns or raises, without the log. *)
Definition financial_outcome (factor_name : string)
    (agg_func : list entry → option value) (self : reader) (table_name : string)
    (start_date end_date : option date) (stock_list : option (list string))
    (yearly : bool) : result Panel :=
  match tables self !! lower table_name with
  | None => Raise (SchemaError_unknown_table (lower table_name))
  | Some t =>
      let pk := List.filter (fun it => mem it (tbl_columns t)) canonical_keys in
      if negb (mem factor_name (tbl_columns t))
      then Raise (SchemaError_unknown_column (lower table_name) factor_name)
      else match List.find (fun c => negb (mem c (tbl_columns t))) (pk ++ [factor_name]) with
      | Some c => Raise (KeyError c)
      | None =>
      if yearly && negb (mem col_report_period pk) then Raise (KeyError col_report_period)
      else if negb (mem col_ID pk) then Raise (AttributeError col_ID)
      else
        let data := yearly_rows yearly (tbl_rows t) in
        let+ st :=
          (match all_secs data stock_list with
           | [] => OK []
           | _ =>
               if negb (mem col_DateTime pk) then Raise (AttributeError col_DateTime)
               else if negb (mem col_report_period pk) then Raise (KeyError col_report_period)
               else OK (storage factor_name agg_func data stock_list)
           end) in
        let+ df := concat st in
        let+ df := unstack df in
        _conform_df self df false start_date end_date stock_list
      end
  end.

(** The stock list as the loop sees it: an omitted or empty list does not
    restrict. *)
Definition requested (stock_list : option (list string)) (s : string) : Prop :=
  match stock_list with
  | None | Some [] => True
  | Some l => s ∈ l
  end.

(** Rows stored in observation order: no row is observed before the row
    stored ahead of it. *)
Definition stored_in_order (data : list row) : Prop :=
  Sorted (fun a b => DateTime a ≤ DateTime b) data.

Definition factor_of (factor_name : string) (r : row) : option value :=
  fields r !! factor_name.

(** What [groupby_last] makes of one report period. *)
Definition group_entry (factor_name : string) (df : list row) (p : date) : option entry :=
  r ← last (group_of p df);
  Some {| e_DateTime := DateTime r; e_ID := ID r; e_period := p;
          e_value := last_valid (factor_of factor_name <$> group_of p df) |}.

(** The report rows of the example: security X, period 2023Q4, observed on
    Feb 1 (value 5) and restated on Mar 1 (value 7). *)
Definition report (obs period : date) (x : Z) : row :=
  {| DateTime := obs; ID := "X"; report_period := period;
     fields := {[ "profit" := Num x ]} |}.

Definition example_reports : list row :=
  [report 20240201 20231231 5; report 20240301 20231231 7].

(** Every row of a frame has one cell per column. *)
Definition rectangular (df : Panel) : Prop :=
  Forall (fun r => length r.2 = length (columns df)) (body df).

(** A body on which [ffill_from] has nothing left to do. *)
Fixpoint settled (above : list (option value))
    (b : list (date * list (option value))) : Prop :=
  match b with
  | [] => True
  | (_, r) :: b' => fill_row above r = r ∧ settled r b'
  end.

(** A table keyed by exactly (DateTime, ID) that has the factor column. *)
Definition two_keyed (t : table) (factor_name : string) : Prop :=
  factor_name ∈ tbl_columns t ∧ col_DateTime ∈ tbl_columns t ∧
  col_ID ∈ tbl_columns t ∧ col_report_period ∉ tbl_columns t.

Definition demo_prices (rows : list row) : reader :=
  {| tables := {[ "prices" := {| tbl_columns := ["DateTime"; "ID"; "close"];
                                 tbl_rows := rows |} ]};
     calendar := [20240101; 20240102; 20240103; 20240104];
     stocks := ["A"; "B"] |}.

Definition quote (d : date) (s : string) (x : Z) : row :=
  {| DateTime := d; ID := s; report_period := 0; fields := {[ "close" := Num x ]} |}.


(** A listing table that has the columns [get_listed_stock] touches. *)
Definition listing_table (self : reader) (t : table) : Prop :=
  tables self !! table_listing = Some t ∧
  col_DateTime ∈ tbl_columns t ∧ col_status ∈ tbl_columns t ∧
  col_ID ∈ tbl_columns t.

(** Some record of the table, dated [date] or earlier, gives the security
    the status [x]. *)
Definition recorded (t : table) (date : date) (x : Z) (s : string) : Prop :=
  ∃ r, r ∈ tbl_rows t ∧ DateTime r ≤ date ∧ ID r = s ∧
       fields r !! col_status = Some (Num x).

(** What [get_listed_stock] answers on the rows of the listing table. *)
Definition listed_on (rows : list row) (date : date) : list string :=
  let data := List.filter (fun r => DateTime r <=? date) rows in
  merge_sort string_le
    (remove_dups
       (List.filter (fun s => negb (mem s (ID <$> List.filter (status_is 0) data)))
          (ID <$> List.filter (status_is 1) data))).

(** The cell of a row under a column label, missing when the row has no
    cell there. *)
Definition col_val (cols : list string) (c : string) (r : list (option value))
    : option value :=
  default None (assoc c (zip cols r)).

(** The content of a frame at a pair of labels: the cell, or missing when
    the frame has no such row or column. *)
Definition content (df : Panel) (d : date) (c : string) : option value :=
  default None (cell df d c).

(** A computation that asks the engine nothing. *)
Definition silent {A} (m : M A) : Prop := queries m = [].



(** A table of financial statements: the factor and the three key
    columns. *)
Definition financial_table (t : table) (factor_name : string) : Prop :=
  factor_name ∈ tbl_columns t ∧ col_DateTime ∈ tbl_columns t ∧
  col_ID ∈ tbl_columns t ∧ col_report_period ∈ tbl_columns t.

(** A report row of any security. *)
Definition report_of (s : string) (obs period : date) (x : Z) : row :=
  {| DateTime := obs; ID := s; report_period := period;
     fields := {[ "profit" := Num x ]} |}.

(** The table and the column [get_industry] reads, and the key it looks
    up in the translation. *)
Definition industry_table_name (provider : string) : string := provider +:+ "行业".
Definition col_industry : string := "行业名称".
Definition level_key (level : Z) : string := "level_" +:+ pretty level.

(** An industry table that has the three columns [get_industry] asks for. *)
Definition industry_table (t : table) : Prop :=
  col_DateTime ∈ tbl_columns t ∧ col_ID ∈ tbl_columns t ∧
  col_industry ∈ tbl_columns t.


(** An industry table of provider P: security A is classified as steel on
    Jan 1 and under a category the translation does not list on Jan 3. *)
Definition sector (d : date) (s : string) (name : string) : row :=
  {| DateTime := d; ID := s; report_period := 0;
     fields := {[ "行业名称" := Text name ]} |}.

Definition demo_sector_table : table :=
  {| tbl_columns := ["DateTime"; "ID"; "行业名称"];
     tbl_rows := [sector 20240101 "A" "steel"; sector 20240103 "A" "unlisted"] |}.

Definition demo_sectors : reader :=
  {| tables := {[ "P行业" := demo_sector_table ]};
     calendar := [20240101; 20240102; 20240103; 20240104];
     stocks := ["A"; "B"] |}.



Definition listing_record (d : date) (s : string) (x : Z) : row :=
  {| DateTime := d; ID := s; report_period := 0;
     fields := {[ col_status := Num x ]} |}.

Definition demo_listing_table : table :=
  {| tbl_columns := [col_DateTime; col_ID; col_status];
     tbl_rows := [listing_record 20200101 "B" 1; listing_record 20200101 "A" 1;
                  listing_record 20210101 "B" 0; listing_record 20220101 "B" 1] |}.

Definition demo_listing : reader :=
  {| tables := {[ table_listing := demo_listing_table ]};
     calendar := []; stocks := [] |}.



Definition demo_income : reader :=
  {| tables := {[ "income" := {| tbl_columns := ["DateTime"; "ID"; "报告期"; "profit"];
                                 tbl_rows := example_reports |} ]};
     calendar := [20240101; 20240201; 20240215; 20240301; 20240401];
     stocks := ["X"; "Y"] |}.

(** * Properties *)

(** ** The monad *)

Lemma bind_raise {A B} (m : M A) (k : A → M B) e :
  outcome m = Raise e → bind m k = (queries m, Raise e).
Proof. destruct m as [log [a|e']]; simpl; intros H; by simplify_eq. Qed.

Lemma outcome_lift {A} (r : result A) : outcome (lift r) = r.
Proof. done. Qed.

(** ** Schema validation *)

Lemma mem_spec x l : mem x l = true ↔ x ∈ l.
Proof. unfold mem. by rewrite bool_decide_eq_true. Qed.

Lemma check_queries self T C :
  queries (_check_args_and_get_primary_keys self T C) = [Reflect].
Proof.
  unfold _check_args_and_get_primary_keys, assert.
  destruct (tables self !! T) as [t|]; [|done].
  by destruct (mem C (tbl_columns t)).
Qed.

Lemma check_outcome self T C :
  outcome (_check_args_and_get_primary_keys self T C) =
  match tables self !! T with
  | None => Raise (SchemaError_unknown_table T)
  | Some t =>
      if mem C (tbl_columns t)
      then OK (List.filter (fun it => mem it (tbl_columns t)) canonical_keys)
      else Raise (SchemaError_unknown_column T C)
  end.
Proof.
  unfold _check_args_and_get_primary_keys, assert.
  destruct (tables self !! T) as [t|]; [|done].
  by destruct (mem C (tbl_columns t)).
Qed.

Lemma filter_sublist {A} (f : A → bool) (l : list A) :
  List.filter f l `sublist_of` l.
Proof.
  induction l as [|x l IH]; simpl; [constructor|].
  destruct (f x); by constructor.
Qed.

Lemma elem_of_List_filter {A} (f : A → bool) (l : list A) x :
  x ∈ List.filter f l ↔ x ∈ l ∧ f x = true.
Proof. rewrite !list_elem_of_In. apply filter_In. Qed.

Lemma filter_all {A} (f : A → bool) (l : list A) :
  Forall (fun x => f x = true) l → List.filter f l = l.
Proof.
  induction 1 as [|x l Hx _ IH]; simpl; [done|]. by rewrite Hx, IH.
Qed.

Lemma Forall_List_filter {A} (P : A → Prop) (f : A → bool) (l : list A) :
  Forall P l → Forall P (List.filter f l).
Proof.
  intros H. apply Forall_forall. intros x [Hx _]%elem_of_List_filter.
  rewrite Forall_forall in H. by apply H.
Qed.

(** C3.  [_check_args_and_get_primary_keys] raises exactly when the table
    is not in the store (unknown table) or the factor is not one of its
    columns (unknown column).  Otherwise it returns the canonical keys
    DateTime, ID, 报告期 that are columns of the table, as a subsequence of
    that fixed order.  It only reflects the schema, and when it raises,
    [get_factor] and [get_financial_factor] have read no table. *)
Theorem resolve_keys_spec (self : reader) (T C : string) :
  let r := _check_args_and_get_primary_keys self T C in
  (is_raise (outcome r) ↔
     tables self !! T = None ∨
     ∃ t, tables self !! T = Some t ∧ C ∉ tbl_columns t) ∧
  (tables self !! T = None → outcome r = Raise (SchemaError_unknown_table T)) ∧
  (∀ t, tables self !! T = Some t →
     (C ∉ tbl_columns t → outcome r = Raise (SchemaError_unknown_column T C)) ∧
     (C ∈ tbl_columns t →
        ∃ keys, outcome r = OK keys ∧
          keys `sublist_of` canonical_keys ∧
          ∀ k, k ∈ keys ↔ k ∈ canonical_keys ∧ k ∈ tbl_columns t)) ∧
  queries r = [Reflect] ∧
  (∀ table_name ffill start_date end_date stock_list agg_func yearly,
     T = lower table_name → is_raise (outcome r) →
     Forall (fun ev => ¬ is_read ev)
       (queries (get_factor self table_name C ffill start_date end_date stock_list)) ∧
     Forall (fun ev => ¬ is_read ev)
       (queries (get_financial_factor C agg_func self table_name
                   start_date end_date stock_list yearly))).
Proof.
  intros r. subst r. rewrite check_queries, check_outcome.
  split_and!.
  - destruct (tables self !! T) as [t|] eqn:Ht; simpl.
    + destruct (mem C (tbl_columns t)) eqn:Hm; simpl.
      * apply mem_spec in Hm. split; [done|].
        intros [?|(t' & ? & ?)]; simplify_eq. done.
      * split; [|done]. intros _. right. exists t. split; [done|].
        rewrite <- mem_spec. by rewrite Hm.
    + split; [|done]. by left.
  - by intros ->.
  - intros t ->. split.
    + intros Hn. destruct (mem C (tbl_columns t)) eqn:Hm; [|done].
      by apply mem_spec in Hm.
    + intros Hin. apply mem_spec in Hin. rewrite Hin. eexists. split; [done|].
      split; [apply filter_sublist|].
      intros k. rewrite elem_of_List_filter. by rewrite mem_spec.
  - done.
  - intros table_name ffill start_date end_date stock_list agg_func yearly -> Hr.
    assert (∃ e, outcome (_check_args_and_get_primary_keys self (lower table_name) C)
                 = Raise e) as [e He].
    { rewrite check_outcome.
      destruct (tables self !! lower table_name) as [t|]; [|by eexists].
      destruct (mem C (tbl_columns t)); [done|by eexists]. }
    unfold get_factor, get_financial_factor.
    rewrite !(bind_raise _ _ e He), check_queries. simpl.
    split; (constructor; [simpl; tauto|constructor]).
Qed.

Lemma resolve_keys_spec_witness :
  (∃ keys,
     outcome (_check_args_and_get_primary_keys demo_reader "prices" "close")
       = OK keys ∧
     keys `sublist_of` canonical_keys ∧
     ∀ k, k ∈ keys ↔ k ∈ canonical_keys ∧ k ∈ ["DateTime"; "ID"; "close"]) ∧
  outcome (_check_args_and_get_primary_keys demo_reader "prices" "open")
    = Raise (SchemaError_unknown_column "prices" "open") ∧
  outcome (_check_args_and_get_primary_keys demo_reader "unknown_table" "x")
    = Raise (SchemaError_unknown_table "unknown_table").
Proof.
  pose proof (resolve_keys_spec demo_reader "prices" "close") as (_ & _ & H1 & _).
  pose proof (resolve_keys_spec demo_reader "prices" "open") as (_ & _ & H2 & _).
  pose proof (resolve_keys_spec demo_reader "unknown_table" "x") as (_ & H3 & _).
  split_and!.
  - apply (H1 _ eq_refl). apply (bool_decide_unpack _). exact I.
  - apply (H2 _ eq_refl). apply (bool_decide_unpack _). exact I.
  - apply H3. reflexivity.
Defined.

(** ** Ascending lists of dates *)

Lemma ascending_strongly l : ascending l → StronglySorted Z.lt l.
Proof. apply Sorted_StronglySorted. intros x y z. lia. Qed.

Lemma strongly_filter {A} (R : relation A) (f : A → bool) l :
  StronglySorted R l → StronglySorted R (List.filter f l).
Proof.
  induction 1 as [|x l Hl IH Hx]; simpl; [constructor|].
  destruct (f x); [|done]. constructor; [done|].
  apply Forall_forall. intros y Hy. apply elem_of_List_filter in Hy as [Hy _].
  by eapply Forall_forall in Hx.
Qed.

Lemma removelast_snoc {A} (l : list A) x : removelast (l ++ [x]) = l.
Proof. apply removelast_last. Qed.

Lemma last_removelast {A} (l : list A) x :
  last l = Some x → l = removelast l ++ [x].
Proof.
  intros H. destruct l as [|y l] using rev_ind; [done|].
  rewrite last_snoc in H. simplify_eq. by rewrite removelast_snoc.
Qed.

Lemma strongly_removelast l :
  StronglySorted Z.lt l → StronglySorted Z.lt (removelast l).
Proof.
  induction 1 as [|x l Hl IH Hx]; [constructor|].
  destruct l as [|y l]; [constructor|].
  change (removelast (x :: y :: l)) with (x :: removelast (y :: l)).
  constructor; [done|].
  apply Forall_forall. intros z Hz. rewrite Forall_forall in Hx. apply Hx.
  destruct (last (y :: l)) as [w|] eqn:Hw.
  - rewrite (last_removelast _ _ Hw). apply elem_of_app. by left.
  - by apply last_None in Hw.
Qed.

Lemma strongly_NoDup l : StronglySorted Z.lt l → NoDup l.
Proof.
  induction 1 as [|x l Hl IH Hx]; constructor; [|done].
  intros Hin. rewrite Forall_forall in Hx. specialize (Hx _ Hin). lia.
Qed.

Lemma strongly_monotonic l :
  StronglySorted Z.lt l → is_monotonic_increasing l = true.
Proof.
  induction 1 as [|x l Hl IH Hx]; [done|].
  destruct l as [|y l]; [done|].
  change (is_monotonic_increasing (x :: y :: l))
    with ((x <=? y) && is_monotonic_increasing (y :: l)).
  rewrite IH, andb_true_r. apply Z.leb_le.
  apply Forall_cons in Hx as [Hx _]. lia.
Qed.

Lemma last_not_in_removelast {A} (l : list A) x :
  NoDup l → last l = Some x → x ∉ removelast l.
Proof.
  intros Hnd Hl. rewrite (last_removelast _ _ Hl) in Hnd.
  apply NoDup_app in Hnd as (_ & Hd & _). intros Hin.
  apply (Hd _ Hin). by apply list_elem_of_singleton.
Qed.

(** ** The row axis through the frame operations *)

Lemma index_reindex target df q :
  reindex target df = OK q → index q = target ∧ columns q = columns df.
Proof.
  unfold reindex. repeat case_decide; intros ?; simplify_eq; [done|].
  unfold index. simpl. split; [|done].
  rewrite <- list_fmap_compose. apply list_fmap_id.
Qed.

Lemma fst_ffill_from above b : (ffill_from above b).*1 = b.*1.
Proof.
  revert above. induction b as [|[d r] b IH]; intros above; simpl; [done|].
  by rewrite IH.
Qed.

Lemma index_forward_fill df : index (forward_fill df) = index df.
Proof. apply fst_ffill_from. Qed.

Lemma fst_filter {A B} (f : A → bool) (b : list (A * B)) :
  (List.filter (fun r => f r.1) b).*1 = List.filter f (b.*1).
Proof.
  induction b as [|[d r] b IH]; simpl; [done|].
  destruct (f d); simpl; [f_equal|]; apply IH.
Qed.

Lemma filter_true {A} (l : list A) : List.filter (fun _ => true) l = l.
Proof. induction l; simpl; congruence. Qed.

Lemma index_loc_from start_date df q :
  is_monotonic_increasing (index df) = true →
  loc_from start_date df = OK q →
  index q = List.filter (not_before start_date) (index df) ∧
  columns q = columns df.
Proof.
  intros Hm. unfold loc_from. destruct start_date as [s|]; simpl.
  - rewrite Hm. intros H. simplify_eq. split; [|done].
    unfold index. simpl. apply (fst_filter (fun d => s <=? d)).
  - intros H. simplify_eq. by rewrite filter_true.
Qed.

Lemma index_reindex_columns target df q :
  reindex_columns target df = OK q → index q = index df ∧ columns q = target.
Proof.
  unfold reindex_columns. repeat case_decide; intros ?; simplify_eq; [done|].
  split; [|done]. unfold index. simpl.
  rewrite <- list_fmap_compose. apply list_fmap_ext. by intros i [d r] _.
Qed.

Lemma select_dates_OK date_list start_date end_date dates :
  select_dates date_list start_date end_date = OK dates →
  dates = List.filter (in_window start_date end_date) date_list.
Proof.
  unfold select_dates. destruct start_date as [s|], end_date as [e|];
    try (intros H; by simplify_eq).
  destruct (e <? s); intros H; by simplify_eq.
Qed.

(** ** Conformance: the row axis *)

Lemma rbind_OK {A B} (r : result A) (k : A → result B) b :
  rbind r k = OK b → ∃ a, r = OK a ∧ k a = OK b.
Proof. destruct r as [a|e]; simpl; [eauto|done]. Qed.

Lemma conform_steps self df ffill start_date end_date stock_list q :
  _conform_df self df ffill start_date end_date stock_list = OK q →
  ∃ dates aligned rows,
    resolved_window self df ffill start_date end_date = OK dates ∧
    reindex (all_but_last dates) df = OK aligned ∧
    (if ffill then loc_from start_date (forward_fill aligned) else OK aligned) = OK rows ∧
    reindex_columns (universe self stock_list) rows = OK q.
Proof.
  unfold _conform_df, resolved_window. intros H.
  apply rbind_OK in H as (rows & H & Hq). destruct ffill.
  - apply rbind_OK in H as (first & Hf & H).
    apply rbind_OK in H as (dates & Hd & H).
    apply rbind_OK in H as (aligned & Ha & H). exists dates, aligned, rows.
    by rewrite Hf.
  - apply rbind_OK in H as (dates & Hd & H). by exists dates, rows, rows.
Qed.

Lemma window_strongly self df ffill start_date end_date dates :
  ascending (calendar self) →
  resolved_window self df ffill start_date end_date = OK dates →
  StronglySorted Z.lt dates.
Proof.
  intros Hc Hd. unfold resolved_window in Hd. destruct ffill.
  - apply rbind_OK in Hd as (first & _ & Hd). apply select_dates_OK in Hd as ->.
    by apply strongly_filter, ascending_strongly.
  - apply select_dates_OK in Hd as ->.
    by apply strongly_filter, ascending_strongly.
Qed.

(** The row axis after conforming with forward fill. *)
Lemma conform_ffill_index self df start_date end_date stock_list q :
  ascending (calendar self) →
  _conform_df self df true start_date end_date stock_list = OK q →
  ∃ first dates,
    index_min df = OK first ∧
    dates = List.filter (in_window (Some first) end_date) (calendar self) ∧
    index q = List.filter (not_before start_date) (all_but_last dates) ∧
    columns q = universe self stock_list.
Proof.
  intros Hc H.
  apply conform_steps in H as (dates & aligned & rows & Hd & Ha & Hr & Hq).
  pose proof (window_strongly _ _ _ _ _ _ Hc Hd) as Hs.
  unfold resolved_window in Hd.
  apply rbind_OK in Hd as (first & Hf & Hd). apply select_dates_OK in Hd.
  exists first, dates. split; [done|]. split; [done|].
  apply index_reindex in Ha as [Ha _].
  apply index_reindex_columns in Hq as [Hq Hcq]. split; [|done].
  rewrite Hq. apply index_loc_from in Hr as [Hr _].
  - by rewrite Hr, index_forward_fill, Ha.
  - rewrite index_forward_fill, Ha.
    by apply strongly_monotonic, strongly_removelast.
Qed.

(** C4, as stated, fails: with forward fill the rows before [start_date]
    are cut off after the alignment, so the row axis is shorter than
    [dates[:-1]] of the window that was resolved. *)
Lemma conform_rows_counterexample :
  ¬ (∀ self df ffill start_date end_date stock_list q dates,
       ascending (calendar self) →
       _conform_df self df ffill start_date end_date stock_list = OK q →
       resolved_window self df ffill start_date end_date = OK dates →
       index q = all_but_last dates).
Proof.
  intros H.
  specialize (H {| tables := ∅;
                   calendar := [20240101; 20240102; 20240103; 20240104];
                   stocks := ["A"] |}
                {| columns := ["A"]; body := [(20240101, [Some (Num 10)])] |}
                true (Some 20240102) None None
                {| columns := ["A"];
                   body := [(20240102, [Some (Num 10)]); (20240103, [Some (Num 10)])] |}
                [20240101; 20240102; 20240103; 20240104]).
  assert (ascending [20240101; 20240102; 20240103; 20240104]) as Hasc.
  { repeat constructor. }
  specialize (H Hasc eq_refl eq_refl). discriminate H.
Qed.

(** C4, amended.  On an ascending calendar the row axis of the conformed
    panel is [dates[:-1]] of the resolved window when forward fill is off;
    with forward fill it is the part of [dates[:-1]] that is not before
    [start_date].  Either way the last resolved date is not a row. *)
Theorem conform_rows (self : reader) (df : Panel) (ffill : bool)
    (start_date end_date : option date) (stock_list : option (list string))
    (q : Panel) :
  ascending (calendar self) →
  _conform_df self df ffill start_date end_date stock_list = OK q →
  ∃ dates,
    resolved_window self df ffill start_date end_date = OK dates ∧
    index q = (if ffill
               then List.filter (not_before start_date) (all_but_last dates)
               else all_but_last dates) ∧
    ∀ d, last dates = Some d → d ∉ index q.
Proof.
  intros Hc H.
  apply conform_steps in H as (dates & aligned & rows & Hd & Ha & Hr & Hq).
  exists dates. split; [done|].
  pose proof (window_strongly _ _ _ _ _ _ Hc Hd) as Hs.
  apply index_reindex in Ha as [Ha _].
  apply index_reindex_columns in Hq as [Hq _].
  assert (index q = (if ffill
               then List.filter (not_before start_date) (all_but_last dates)
               else all_but_last dates)) as Hi.
  { rewrite Hq. destruct ffill.
    - apply index_loc_from in Hr as [Hr _].
      + by rewrite Hr, index_forward_fill, Ha.
      + rewrite index_forward_fill, Ha.
        by apply strongly_monotonic, strongly_removelast.
    - by simplify_eq. }
  split; [done|].
  intros d Hl Hin. rewrite Hi in Hin.
  apply (last_not_in_removelast dates d); [by apply strongly_NoDup|done|].
  destruct ffill; [|done].
  by apply elem_of_List_filter in Hin as [Hin _].
Qed.

Lemma conform_rows_witness :
  ascending (calendar demo_reader) ∧
  _conform_df demo_reader demo_panel true (Some 20240102) None None
    = OK demo_conformed ∧
  ∃ dates,
    resolved_window demo_reader demo_panel true (Some 20240102) None = OK dates ∧
    index demo_conformed
      = List.filter (not_before (Some 20240102)) (all_but_last dates) ∧
    ∀ d, last dates = Some d → d ∉ index demo_conformed.
Proof.
  assert (ascending (calendar demo_reader)) as Hasc by repeat constructor.
  split; [done|]. split; [reflexivity|].
  apply (conform_rows demo_reader demo_panel true (Some 20240102) None None
           demo_conformed Hasc).
  reflexivity.
Defined.

(** C5, as stated, fails: Jan 4 is the last date of the resolved window
    and is dropped before the alignment, so it is not a row. *)
Lemma conform_example_counterexample :
  _conform_df
    {| tables := ∅; calendar := [20240101; 20240102; 20240103; 20240104];
       stocks := ["A"] |}
    {| columns := ["A"];
       body := [(20240101, [Some (Num 10)]); (20240103, [Some (Num 30)])] |}
    true (Some 20240102) (Some 20240104) None
  ≠ OK {| columns := ["A"];
          body := [(20240102, [Some (Num 10)]); (20240103, [Some (Num 30)]);
                   (20240104, [Some (Num 30)])] |}.
Proof. vm_compute. discriminate. Qed.

(** C5, amended.  With the calendar Jan 1 to Jan 4 and the raw panel
    (Jan 1, A) = 10, (Jan 3, A) = 30, conforming with forward fill from
    Jan 2 to Jan 4 gives the rows Jan 2 and Jan 3 with the values 10 and
    30, whatever the universe default is. *)
Theorem conform_example (self : reader) :
  calendar self = [20240101; 20240102; 20240103; 20240104] →
  _conform_df self
    {| columns := ["A"];
       body := [(20240101, [Some (Num 10)]); (20240103, [Some (Num 30)])] |}
    true (Some 20240102) (Some 20240104) (Some ["A"])
  = OK {| columns := ["A"];
          body := [(20240102, [Some (Num 10)]); (20240103, [Some (Num 30)])] |}.
Proof. intros Hc. unfold _conform_df. rewrite Hc. reflexivity. Qed.

Lemma conform_example_witness :
  _conform_df
    {| tables := ∅; calendar := [20240101; 20240102; 20240103; 20240104];
       stocks := [] |}
    {| columns := ["A"];
       body := [(20240101, [Some (Num 10)]); (20240103, [Some (Num 30)])] |}
    true (Some 20240102) (Some 20240104) (Some ["A"])
  = OK {| columns := ["A"];
          body := [(20240102, [Some (Num 10)]); (20240103, [Some (Num 30)])] |}.
Proof. apply conform_example. reflexivity. Defined.

(** ** Conformance: the column axis *)

Lemma assoc_fmap {K A B} `{EqDecision K} (f : A → B) (k : K) (l : list (K * A)) :
  assoc k ((fun '(k', a) => (k', f a)) <$> l) = f <$> assoc k l.
Proof.
  induction l as [|[k' a] l IH]; simpl; [done|]. by case_decide.
Qed.

Lemma assoc_not_in {K A} `{EqDecision K} (k : K) (l : list (K * A)) :
  k ∉ l.*1 → assoc k l = None.
Proof.
  induction l as [|[k' a] l IH]; simpl; [done|].
  rewrite not_elem_of_cons. intros [Hne Hl]. case_decide; [done|]. by apply IH.
Qed.

Lemma assoc_in {K A} `{EqDecision K} (k : K) (l : list (K * A)) :
  k ∈ l.*1 → is_Some (assoc k l).
Proof.
  induction l as [|[k' a] l IH]; simpl.
  - by intros ?%elem_of_nil.
  - rewrite elem_of_cons. intros [->|Hl]; case_decide; eauto; congruence.
Qed.

Lemma assoc_zip_fmap {K A} `{EqDecision K} (f : K → A) (k : K) (t : list K) :
  assoc k (zip t (f <$> t)) = if decide (k ∈ t) then Some (f k) else None.
Proof.
  induction t as [|k' t IH]; csimpl; [done|].
  destruct (decide (k = k')) as [Hk|Hk].
  - subst. rewrite decide_True; [done|]. by left.
  - rewrite IH. destruct (decide (k ∈ t)) as [Hin|Hin].
    + rewrite decide_True; [done|]. by right.
    + rewrite decide_False; [done|]. rewrite not_elem_of_cons. done.
Qed.

Lemma fst_zip_subseteq {A B} (l : list A) (r : list B) x :
  x ∈ (zip l r).*1 → x ∈ l.
Proof.
  revert r. induction l as [|a l IH]; intros [|b r]; simpl;
    try by intros ?%elem_of_nil.
  rewrite !elem_of_cons. intros [->|H]; [by left|]. right. by eapply IH.
Qed.

(** The cells of a frame after [reindex(target, axis=1)]. *)
Lemma cell_reindex_columns target df q d c :
  reindex_columns target df = OK q →
  columns df ≠ target →
  cell q d c =
    r ← assoc d (body df);
    if decide (c ∈ target)
    then Some (default None (assoc c (zip (columns df) r)))
    else None.
Proof.
  unfold reindex_columns. case_decide; [done|].
  case_decide; intros ? _; simplify_eq.
  unfold cell. simpl.
  rewrite (assoc_fmap (fun r => (fun c => default None (assoc c (zip (columns df) r)))
                                  <$> target)).
  destruct (assoc d (body df)) as [r|]; simpl; [|done].
  apply (assoc_zip_fmap (fun c => default None (assoc c (zip (columns df) r)))).
Qed.

Lemma columns_loc_from start_date df q :
  loc_from start_date df = OK q → columns q = columns df.
Proof.
  unfold loc_from. destruct start_date as [s|]; [|by intros ?; simplify_eq].
  repeat case_match; intros ?; by simplify_eq.
Qed.

Lemma cell_outside_columns q d c : c ∉ columns q → cell q d c = None.
Proof.
  intros Hc. unfold cell. destruct (assoc d (body q)) as [r|]; simpl; [|done].
  apply assoc_not_in. intros Hin. by apply fst_zip_subseteq in Hin.
Qed.

(** C7, as stated, fails: an empty universe is falsy, so line 156 replaces
    it by the full security list and the panel has those columns. *)
Lemma conform_empty_universe_counterexample :
  ¬ (∀ self df ffill start_date end_date q,
       _conform_df self df ffill start_date end_date (Some []) = OK q →
       columns q = []).
Proof.
  intros H.
  specialize (H {| tables := ∅; calendar := [20240101; 20240102; 20240103];
                   stocks := ["A"; "B"] |}
                {| columns := ["A"]; body := [(20240101, [Some (Num 10)])] |}
                false None None
                {| columns := ["A"; "B"];
                   body := [(20240101, [Some (Num 10); None]);
                            (20240102, [None; None])] |}
                eq_refl).
  discriminate H.
Qed.

(** C7, amended.  The column axis of the conformed panel is the requested
    universe, or the full security list of the reader when the universe
    is omitted or empty (so an empty universe gives zero columns only if
    the reader knows no security).  For a non-empty universe, a requested
    security that the panel does not have is a column of missing cells,
    and a security outside the universe is not a column. *)
Theorem conform_columns (self : reader) (df : Panel) (ffill : bool)
    (start_date end_date : option date) (stock_list : option (list string))
    (q : Panel) :
  _conform_df self df ffill start_date end_date stock_list = OK q →
  columns q = universe self stock_list ∧
  (stock_list = None ∨ stock_list = Some [] → columns q = stocks self) ∧
  (∀ l, stock_list = Some l → l ≠ [] →
     columns q = l ∧
     (∀ d c, d ∈ index q → c ∈ l → c ∉ columns df → cell q d c = Some None) ∧
     (∀ d c, c ∉ l → cell q d c = None)).
Proof.
  intros H.
  apply conform_steps in H as (dates & aligned & rows & Hd & Ha & Hr & Hq).
  pose proof (index_reindex_columns _ _ _ Hq) as [Hi Hc].
  split; [done|]. split.
  { intros [->| ->]; by rewrite Hc. }
  intros l -> Hl.
  assert (universe self (Some l) = l) as Hu by (by destruct l).
  rewrite Hu in Hc, Hq. split; [done|].
  assert (columns rows = columns df) as Hcols.
  { apply index_reindex in Ha as [_ Ha]. destruct ffill.
    - apply columns_loc_from in Hr. by rewrite Hr.
    - by simplify_eq. }
  split.
  - intros d c Hd' Hin Hnot.
    destruct (decide (columns rows = l)) as [Heq|Hne].
    { exfalso. apply Hnot. by rewrite <- Hcols, Heq. }
    rewrite (cell_reindex_columns _ _ _ d c Hq Hne).
    rewrite Hi in Hd'. apply assoc_in in Hd' as [r ->]. simpl.
    rewrite decide_True by done. f_equal.
    rewrite assoc_not_in; [done|].
    intros Hz. apply fst_zip_subseteq in Hz. apply Hnot. by rewrite <- Hcols.
  - intros d c Hnot. apply cell_outside_columns. by rewrite Hc.
Qed.

Lemma conform_columns_witness :
  _conform_df demo_reader demo_panel true (Some 20240102) None (Some ["A"; "B"])
    = OK demo_conformed ∧
  columns demo_conformed = ["A"; "B"] ∧
  cell demo_conformed 20240102 "B" = Some None ∧
  cell demo_conformed 20240102 "C" = None.
Proof.
  assert (_conform_df demo_reader demo_panel true (Some 20240102) None
            (Some ["A"; "B"]) = OK demo_conformed) as H by reflexivity.
  split; [done|].
  destruct (conform_columns _ _ _ _ _ _ _ H) as (_ & _ & Hl).
  destruct (Hl ["A"; "B"] eq_refl) as (Hc & Hmiss & Hdrop); [done|].
  split; [done|]. split.
  - apply Hmiss; apply (bool_decide_unpack _); exact I.
  - apply Hdrop. apply (bool_decide_unpack _). exact I.
Defined.

(** ** Long to wide *)

Lemma assoc_diag {K A} `{EqDecision K} (g : K → A) (k : K) (t : list K) :
  assoc k ((fun k' => (k', g k')) <$> t) = if decide (k ∈ t) then Some (g k) else None.
Proof.
  induction t as [|k' t IH]; csimpl; [done|].
  destruct (decide (k = k')) as [Hk|Hk].
  - subst. rewrite decide_True; [done|]. by left.
  - rewrite IH. destruct (decide (k ∈ t)) as [Hin|Hin].
    + rewrite decide_True; [done|]. by right.
    + rewrite decide_False; [done|]. rewrite not_elem_of_cons. done.
Qed.

Lemma fst_diag {K A} (g : K → A) (t : list K) :
  ((fun k => (k, g k)) <$> t).*1 = t.
Proof.
  rewrite <- list_fmap_compose. rewrite <- (list_fmap_id t) at 2.
  by apply list_fmap_ext.
Qed.

Lemma assoc_NoDup {K A} `{EqDecision K} (k : K) (a : A) (l : list (K * A)) :
  NoDup (l.*1) → (k, a) ∈ l → assoc k l = Some a.
Proof.
  induction l as [|[k' a'] l IH]; csimpl.
  - by intros _ ?%elem_of_nil.
  - rewrite NoDup_cons, elem_of_cons. intros [Hk Hl] [Heq|Hin].
    + simplify_eq. by rewrite decide_True.
    + rewrite decide_False; [by apply IH|].
      intros ->. apply Hk. apply list_elem_of_fmap. by exists (k', a).
Qed.

Lemma elem_of_sorted_set {A} `{EqDecision A} (R : relation A)
    `{∀ x y, Decision (R x y)} (l : list A) x :
  x ∈ merge_sort R (remove_dups l) ↔ x ∈ l.
Proof. by rewrite merge_sort_Permutation, elem_of_remove_dups. Qed.

Lemma NoDup_sorted_set {A} `{EqDecision A} (R : relation A)
    `{∀ x y, Decision (R x y)} (l : list A) :
  NoDup (merge_sort R (remove_dups l)).
Proof. rewrite merge_sort_Permutation. apply NoDup_remove_dups. Qed.

(** The cells of an unstacked series. *)
Lemma cell_unstack (s : list (date * string * option value)) p d c :
  unstack s = OK p →
  cell p d c =
    if decide (d ∈ index p) then
      if decide (c ∈ columns p) then Some (default None (assoc (d, c) s)) else None
    else None.
Proof.
  unfold unstack. case_decide; [|done]. intros ?; simplify_eq.
  unfold cell, index; simpl.
  rewrite fst_diag.
  rewrite (assoc_diag (fun d => (fun c => default None (assoc (d, c) s))
                         <$> merge_sort string_le (remove_dups (s.*1).*2))).
  case_decide; simpl; [|done].
  apply (assoc_zip_fmap (fun c => default None (assoc (d, c) s))).
Qed.

Lemma unstack_axes (s : list (date * string * option value)) p :
  unstack s = OK p →
  (∀ d, d ∈ index p ↔ d ∈ (s.*1).*1) ∧
  (∀ c, c ∈ columns p ↔ c ∈ (s.*1).*2) ∧
  NoDup (index p) ∧ NoDup (columns p).
Proof.
  unfold unstack. case_decide; [|done]. intros ?; simplify_eq.
  unfold index; simpl.
  rewrite fst_diag. split_and!.
  - intros d. apply elem_of_sorted_set.
  - intros c. apply elem_of_sorted_set.
  - apply NoDup_sorted_set.
  - apply NoDup_sorted_set.
Qed.

(** A long series keyed by (DateTime, ID) in which some key occurs at two
    positions cannot be unstacked.  When every key occurs once, the result
    is the pivot. *)
Lemma unstack_pivot (s : list (date * string * option value)) :
  ((∃ i j k, i ≠ j ∧ s.*1 !! i = Some k ∧ s.*1 !! j = Some k) →
     unstack s = Raise DuplicateKeyError) ∧
  ((∀ i j k, s.*1 !! i = Some k → s.*1 !! j = Some k → i = j) →
     ∃ p, unstack s = OK p ∧
       (∀ d, d ∈ index p ↔ ∃ c v, (d, c, v) ∈ s) ∧
       (∀ c, c ∈ columns p ↔ ∃ d v, (d, c, v) ∈ s) ∧
       NoDup (index p) ∧ NoDup (columns p) ∧
       (∀ d c v, (d, c, v) ∈ s → cell p d c = Some v) ∧
       (∀ d c, d ∈ index p → c ∈ columns p → (d, c) ∉ s.*1 →
          cell p d c = Some None)).
Proof.
  split.
  - intros (i & j & k & Hij & Hi & Hj). unfold unstack.
    rewrite decide_False; [done|].
    rewrite NoDup_alt. intros Hnd. by apply Hij, (Hnd i j k).
  - intros Hnd. apply NoDup_alt in Hnd.
    destruct (unstack s) as [p|e] eqn:Hp; last first.
    { unfold unstack in Hp. by rewrite decide_True in Hp. }
    exists p. split; [done|].
    destruct (unstack_axes _ _ Hp) as (Hidx & Hcols & Hni & Hnc).
    assert (∀ d c v, (d, c, v) ∈ s → d ∈ (s.*1).*1 ∧ c ∈ (s.*1).*2) as Hkeys.
    { intros d c v Hin. split; apply list_elem_of_fmap; exists (d, c);
        (split; [done|]); apply list_elem_of_fmap; by exists (d, c, v). }
    split_and!; try done.
    + intros d. rewrite Hidx. split.
      * intros ([d' c] & -> & ([[d'' c'] v] & ? & Hin)%list_elem_of_fmap)%list_elem_of_fmap.
        simplify_eq/=. eauto.
      * intros (c & v & Hin). by apply (Hkeys d c v).
    + intros c. rewrite Hcols. split.
      * intros ([d c'] & -> & ([[d'' c''] v] & ? & Hin)%list_elem_of_fmap)%list_elem_of_fmap.
        simplify_eq/=. eauto.
      * intros (d & v & Hin). by apply (Hkeys d c v).
    + intros d c v Hin. rewrite (cell_unstack _ _ _ _ Hp).
      destruct (Hkeys d c v Hin) as [Hd Hc].
      rewrite !decide_True by (by rewrite ?Hidx, ?Hcols).
      by rewrite (assoc_NoDup (d, c) v s).
    + intros d c Hd Hc Hnot. rewrite (cell_unstack _ _ _ _ Hp).
      rewrite !decide_True by done. by rewrite assoc_not_in.
Qed.

(** ** Industry levels *)

Lemma outcome_bind_raise {A B} (m : M A) (k : A → M B) e :
  outcome (bind m k) = Raise e →
  outcome m = Raise e ∨ ∃ a, outcome m = OK a ∧ outcome (k a) = Raise e.
Proof.
  unfold outcome. destruct m as [log [a|e']]; simpl; [|intros [= ->]; by left].
  destruct (k a) as [log' r] eqn:Hk. simpl. intros ->. right. exists a.
  by rewrite Hk.
Qed.

Lemma rbind_raise {A B} (r : result A) (k : A → result B) e :
  rbind r k = Raise e → r = Raise e ∨ ∃ a, r = OK a ∧ k a = Raise e.
Proof. destruct r as [a|e']; simpl; [eauto|]. intros [= ->]. by left. Qed.

Lemma conform_not_assertion self df ffill start_date end_date stock_list e :
  _conform_df self df ffill start_date end_date stock_list = Raise e →
  ¬ is_assertion e.
Proof.
  unfold _conform_df, index_min, select_dates, reindex, loc_from, reindex_columns.
  intros H He.
  repeat match goal with
  | H : rbind _ _ = Raise _ |- _ => apply rbind_raise in H as [H|(? & ? & H)]
  | H : context [if ?b then _ else _] |- _ => destruct b
  | H : context [match ?x with _ => _ end] |- _ => destruct x
  | H : Raise _ = Raise _ |- _ => injection H as <-
  | H : OK _ = Raise _ |- _ => discriminate H
  end; try done.
Qed.

Lemma unstack_not_assertion s e : unstack s = Raise e → ¬ is_assertion e.
Proof. unfold unstack. case_decide; intros ?; simplify_eq. simpl. tauto. Qed.

Lemma read_not_assertion self table_name query_columns e :
  outcome (read_sql_table self table_name query_columns) = Raise e →
  ¬ is_assertion e.
Proof.
  unfold read_sql_table. intros H.
  apply outcome_bind_raise in H as [H|(? & _ & H)]; [done|].
  unfold outcome, raise, ret in H.
  repeat case_match; simpl in H; simplify_eq; simpl; tauto.
Qed.

Lemma check_level_outcome INDUSTRY_LEVEL provider level top :
  INDUSTRY_LEVEL !! provider = Some top →
  outcome (check_level INDUSTRY_LEVEL provider level) =
    if (0 <? level) && (level <=? top) then OK tt
    else Raise (LevelError provider level).
Proof.
  intros Ht. unfold check_level, assert. rewrite Ht.
  destruct (0 <? level); [|done]. by destruct (level <=? top).
Qed.

Lemma get_industry_assertion INDUSTRY_LEVEL translation self provider level top
    start_date end_date stock_list msg :
  INDUSTRY_LEVEL !! provider = Some top →
  outcome (get_industry INDUSTRY_LEVEL translation self provider level
             start_date end_date stock_list) = Raise (AssertionError msg) →
  level ≤ 0 ∨ top < level.
Proof.
  intros Ht H. pose proof (check_level_outcome _ provider level _ Ht) as Hg.
  destruct ((0 <? level) && (level <=? top)) eqn:Hb.
  - exfalso. unfold get_industry in H.
    apply outcome_bind_raise in H as [H|(_ & _ & H)]; [congruence|].
    apply outcome_bind_raise in H as [H|(df & _ & H)].
    { by apply read_not_assertion in H. }
    case_decide; [|done].
    apply outcome_bind_raise in H as [H|(tr & _ & H)].
    { unfold new_translation, outcome, raise, ret in H.
      repeat case_match; simpl in H; by simplify_eq. }
    apply outcome_bind_raise in H as [H|(p & _ & H)].
    { rewrite outcome_lift in H. by apply unstack_not_assertion in H. }
    rewrite outcome_lift in H. by apply conform_not_assertion in H.
  - apply andb_false_iff in Hb as [Hb|Hb]; [left|right]; lia.
Qed.

(** C9.  For a provider whose deepest level is [top], [get_industry]
    raises the level assertion exactly when the requested level is not
    positive or exceeds [top]. *)
Theorem level_guard_spec (INDUSTRY_LEVEL : gmap string Z)
    (translation : gmap string (gmap string (gmap string string)))
    (self : reader) (provider : string) (level top : Z)
    (start_date end_date : option date) (stock_list : option (list string)) :
  INDUSTRY_LEVEL !! provider = Some top →
  outcome (get_industry INDUSTRY_LEVEL translation self provider level
             start_date end_date stock_list)
    = Raise (LevelError provider level) ↔
  level ≤ 0 ∨ top < level.
Proof.
  intros Ht. split.
  - by apply get_industry_assertion.
  - intros Hl. pose proof (check_level_outcome _ provider level _ Ht) as Hg.
    unfold get_industry. rewrite (bind_raise _ _ (LevelError provider level)); [done|].
    rewrite Hg. destruct ((0 <? level) && (level <=? top)) eqn:Hb; [|done].
    apply andb_true_iff in Hb as [Hb1 Hb2]. lia.
Qed.

Lemma level_guard_spec_witness :
  ({[ "P" := 3 ]} : gmap string Z) !! "P" = Some 3 ∧
  outcome (get_industry {[ "P" := 3 ]} ∅ demo_reader "P" 5 None None None)
    = Raise (LevelError "P" 5).
Proof.
  split; [reflexivity|].
  apply (level_guard_spec {[ "P" := 3 ]} ∅ demo_reader "P" 5 3 None None None).
  - reflexivity.
  - right. lia.
Defined.

(** ** The point-in-time build *)

Lemma outcome_bind {A B} (m : M A) (k : A → M B) :
  outcome (bind m k) = rbind (outcome m) (fun a => outcome (k a)).
Proof.
  unfold outcome. destruct m as [log [a|e]]; simpl; [|done]. by destruct (k a).
Qed.

Lemma read_outcome self table_name query_columns :
  outcome (read_sql_table self table_name query_columns) =
  match tables self !! table_name with
  | None => Raise (ValueError ("Table " +:+ table_name +:+ " not found"))
  | Some t =>
      match List.find (fun c => negb (mem c (tbl_columns t))) query_columns with
      | Some c => Raise (KeyError c)
      | None => OK (tbl_rows t)
      end
  end.
Proof.
  unfold read_sql_table. rewrite outcome_bind. simpl.
  destruct (tables self !! table_name) as [t|]; [|done].
  by destruct (List.find _ query_columns).
Qed.

Lemma find_none_subset (cols query : list string) :
  (∀ c, c ∈ query → c ∈ cols) →
  List.find (fun c => negb (mem c cols)) query = None.
Proof.
  intros Hsub. destruct (List.find _ query) as [c|] eqn:Hf; [|done].
  apply find_some in Hf as [Hin Hc]. apply list_elem_of_In, Hsub, mem_spec in Hin.
  by rewrite Hin in Hc.
Qed.

Lemma get_financial_factor_outcome factor_name agg_func self table_name
    start_date end_date stock_list yearly :
  outcome (get_financial_factor factor_name agg_func self table_name
             start_date end_date stock_list yearly)
  = financial_outcome factor_name agg_func self table_name
      start_date end_date stock_list yearly.
Proof.
  unfold get_financial_factor, financial_outcome.
  rewrite outcome_bind, check_outcome.
  destruct (tables self !! lower table_name) as [t|] eqn:Ht; cbn [rbind]; [|done].
  set (pk := List.filter (fun it => mem it (tbl_columns t)) canonical_keys).
  destruct (mem factor_name (tbl_columns t)); cbn [rbind negb]; [|done].
  rewrite outcome_bind, read_outcome, Ht.
  destruct (List.find _ _); cbn [rbind]; [done|].
  rewrite outcome_bind.
  destruct yearly; cbn [andb yearly_rows].
  - destruct (mem col_report_period pk); cbn [rbind negb outcome raise snd]; [|done].
    cbn [ret rbind outcome snd].
    rewrite outcome_bind. destruct (mem col_ID pk); cbn [rbind negb outcome raise ret snd]; [|done].
    rewrite outcome_bind.
    destruct (all_secs _ stock_list); cbn [rbind outcome ret snd].
    + by rewrite outcome_bind.
    + destruct (mem col_DateTime pk); cbn [rbind negb outcome raise ret snd]; [|done].
      rewrite outcome_bind, outcome_lift. destruct (concat _); cbn [rbind]; [|done].
      rewrite outcome_bind, outcome_lift. by destruct (unstack _).
  - cbn [ret rbind outcome snd].
    rewrite outcome_bind. destruct (mem col_ID pk); cbn [rbind negb outcome raise ret snd]; [|done].
    rewrite outcome_bind.
    destruct (all_secs _ stock_list); cbn [rbind outcome ret snd].
    + by rewrite outcome_bind.
    + destruct (mem col_DateTime pk); cbn [rbind negb outcome raise ret snd]; [|done].
      destruct (mem col_report_period pk); cbn [rbind negb outcome raise ret snd]; [|done].
      rewrite outcome_bind, outcome_lift. destruct (concat _); cbn [rbind]; [|done].
      rewrite outcome_bind, outcome_lift. by destruct (unstack _).
Qed.

Lemma keys_of_table (t : table) (k : string) :
  k ∈ canonical_keys → k ∈ tbl_columns t →
  mem k (List.filter (fun it => mem it (tbl_columns t)) canonical_keys) = true.
Proof.
  intros Hk Hc. apply mem_spec, elem_of_List_filter. by rewrite mem_spec.
Qed.

(** C10.  When the rows left after the yearly filter, restricted to the
    requested stock list, name no security at all, the loops store
    nothing and [get_financial_factor] raises instead of returning an
    empty panel; on a table that has the key columns the exception is the
    [ValueError] of [pd.concat] on an empty list. *)
Theorem empty_build_raises (factor_name : string)
    (agg_func : list entry → option value) (self : reader) (table_name : string)
    (start_date end_date : option date) (stock_list : option (list string))
    (yearly : bool) :
  (∀ t, tables self !! lower table_name = Some t →
        all_secs (yearly_rows yearly (tbl_rows t)) stock_list = []) →
  is_raise (outcome (get_financial_factor factor_name agg_func self table_name
                       start_date end_date stock_list yearly)) ∧
  (∀ t, tables self !! lower table_name = Some t →
        factor_name ∈ tbl_columns t →
        col_ID ∈ tbl_columns t → col_report_period ∈ tbl_columns t →
        outcome (get_financial_factor factor_name agg_func self table_name
                   start_date end_date stock_list yearly)
          = Raise (ValueError "No objects to concatenate")).
Proof.
  intros Hempty. rewrite get_financial_factor_outcome. unfold financial_outcome.
  destruct (tables self !! lower table_name) as [t|] eqn:Ht; [|done].
  specialize (Hempty t eq_refl). rewrite Hempty. cbn [rbind concat].
  split.
  - repeat case_match; done.
  - intros t0 [= <-] Hf Hid Hp.
    apply mem_spec in Hf. rewrite Hf. cbn [negb].
    rewrite find_none_subset; last first.
    { intros c. rewrite elem_of_app, list_elem_of_singleton.
      intros [Hc| ->]; [|by apply mem_spec].
      apply elem_of_List_filter in Hc as [_ Hc]. by apply mem_spec. }
    rewrite !keys_of_table; try done; try (apply (bool_decide_unpack _); exact I).
    by rewrite andb_false_r.
Qed.

Lemma empty_build_raises_witness :
  all_secs (yearly_rows true []) (Some ["A"]) = [] ∧
  outcome (get_financial_factor "close" latest
             {| tables := {[ "income" := {| tbl_columns := ["DateTime"; "ID"; "报告期"; "close"];
                                          tbl_rows := [] |} ]};
                calendar := [20240101; 20240102]; stocks := ["A"] |}
             "Income" None None (Some ["A"]) true)
    = Raise (ValueError "No objects to concatenate").
Proof.
  split; [reflexivity|].
  eapply (empty_build_raises "close" latest).
  - intros t Ht. vm_compute in Ht. by injection Ht as <-.
  - reflexivity.
  - apply (bool_decide_unpack _). exact I.
  - apply (bool_decide_unpack _). exact I.
  - apply (bool_decide_unpack _). exact I.
Defined.

(** *** What the loops store *)

Lemma assoc_app {K A} `{EqDecision K} (k : K) (l1 l2 : list (K * A)) :
  assoc k (l1 ++ l2) = match assoc k l1 with
                       | Some a => Some a
                       | None => assoc k l2
                       end.
Proof.
  induction l1 as [|[k' a] l1 IH]; simpl; [done|]. by case_decide.
Qed.

Lemma assoc_tagged {A} (g : date → A) (sec s : string) (d : date) (ds : list date) :
  assoc (d, s) ((fun d' => (d', sec, g d')) <$> ds)
  = if decide (sec = s ∧ d ∈ ds) then Some (g d) else None.
Proof.
  induction ds as [|d' ds IH].
  - rewrite decide_False; [done|]. intros [_ ?%elem_of_nil]. done.
  - rewrite fmap_cons. cbn [assoc].
    destruct (decide ((d, s) = (d', sec))) as [Heq|Hne].
    + simplify_eq. rewrite decide_True; [done|]. split; [done|by left].
    + rewrite IH. destruct (decide (sec = s ∧ d ∈ ds)) as [[-> Hin]|Hn].
      * rewrite decide_True; [done|]. split; [done|by right].
      * rewrite decide_False; [done|]. intros [-> Hin].
        apply elem_of_cons in Hin as [->|Hin]; [done|]. by apply Hn.
Qed.

Lemma assoc_nested {A} (g : string → date → A) (ds : string → list date)
    (secs : list string) (s : string) (d : date) :
  assoc (d, s) (sec ← secs; (fun d' => (d', sec, g sec d')) <$> ds sec)
  = if decide (s ∈ secs ∧ d ∈ ds s) then Some (g s d) else None.
Proof.
  induction secs as [|sec secs IH].
  - rewrite decide_False; [done|]. intros [?%elem_of_nil _]. done.
  - rewrite bind_cons, assoc_app, assoc_tagged, IH.
    destruct (decide (sec = s ∧ d ∈ ds sec)) as [[-> Hin]|Hn].
    + rewrite decide_True; [done|]. split; [by left|done].
    + destruct (decide (s ∈ secs ∧ d ∈ ds s)) as [[Hs Hin]|Hn'].
      * rewrite decide_True; [done|]. split; [by right|done].
      * rewrite decide_False; [done|]. intros [Hs Hin].
        apply elem_of_cons in Hs as [->|Hs]; [by apply Hn|by apply Hn'].
Qed.

Lemma assoc_storage factor_name agg_func data stock_list d s :
  assoc (d, s) (storage factor_name agg_func data stock_list)
  = if decide (s ∈ all_secs data stock_list ∧ d ∈ as_of_dates (id_data data s))
    then Some (output_data factor_name agg_func data s d)
    else None.
Proof.
  unfold storage.
  apply (assoc_nested (output_data factor_name agg_func data)
           (fun s => as_of_dates (id_data data s))).
Qed.

Lemma elem_of_as_of_dates (l : list row) d :
  d ∈ as_of_dates l ↔ ∃ r, r ∈ l ∧ DateTime r = d.
Proof.
  unfold as_of_dates. rewrite elem_of_sorted_set, list_elem_of_fmap.
  split; intros (r & ? & ?); by exists r.
Qed.

Lemma elem_of_id_data data s r :
  r ∈ id_data data s ↔ r ∈ data ∧ ID r = s.
Proof.
  unfold id_data. rewrite elem_of_List_filter. by rewrite bool_decide_eq_true.
Qed.

Lemma elem_of_all_secs data stock_list s :
  s ∈ all_secs data stock_list ↔ (∃ r, r ∈ data ∧ ID r = s) ∧ requested stock_list s.
Proof.
  assert (s ∈ remove_dups (ID <$> data) ↔ ∃ r, r ∈ data ∧ ID r = s) as Hs.
  { rewrite elem_of_remove_dups, list_elem_of_fmap.
    split; intros (r & ? & ?); by exists r. }
  unfold all_secs, requested. destruct stock_list as [[|x l]|].
  - rewrite Hs. tauto.
  - rewrite elem_of_List_filter, Hs, mem_spec. tauto.
  - rewrite Hs. tauto.
Qed.

Lemma filter_app_nil {A} (f : A → bool) (l new : list A) :
  Forall (fun x => f x = false) new →
  List.filter f (l ++ new) = List.filter f l.
Proof.
  intros Hn. rewrite List.filter_app.
  assert (List.filter f new = []) as ->; [|by rewrite app_nil_r].
  induction Hn as [|x new Hx _ IH]; simpl; [done|]. by rewrite Hx.
Qed.

Lemma List_filter_comm {A} (f g : A → bool) (l : list A) :
  List.filter f (List.filter g l) = List.filter g (List.filter f l).
Proof.
  induction l as [|x l IH]; simpl; [done|].
  destruct (f x) eqn:Hf, (g x) eqn:Hg; simpl; rewrite ?Hf, ?Hg, IH; done.
Qed.

Lemma List_filter_idemp {A} (f : A → bool) (l : list A) :
  List.filter f (List.filter f l) = List.filter f l.
Proof.
  induction l as [|x l IH]; simpl; [done|].
  destruct (f x) eqn:Hf; simpl; rewrite ?Hf, IH; done.
Qed.

(** The rows the scalar under (date, sec_id) is computed from. *)
Lemma known_rows_append data new s d :
  Forall (fun r => d < DateTime r) new →
  date_id_data (id_data (data ++ new) s) d = date_id_data (id_data data s) d.
Proof.
  intros Hn. unfold date_id_data, id_data.
  rewrite !(List_filter_comm (fun r => DateTime r <=? d)).
  f_equal. apply filter_app_nil.
  eapply Forall_impl; [done|]. intros r Hr. simpl in *. lia.
Qed.

Lemma output_data_append factor_name agg_func data new sec_id d :
  Forall (fun r => d < DateTime r) new →
  output_data factor_name agg_func (data ++ new) sec_id d
  = output_data factor_name agg_func data sec_id d.
Proof. intros Hn. unfold output_data. by rewrite known_rows_append. Qed.

Lemma storage_append factor_name agg_func data new stock_list sec_id d :
  Forall (fun r => d < DateTime r) new →
  assoc (d, sec_id) (storage factor_name agg_func (data ++ new) stock_list)
  = assoc (d, sec_id) (storage factor_name agg_func data stock_list).
Proof.
  intros Hn. rewrite !assoc_storage, output_data_append by done.
  assert (∀ r, r ∈ new → DateTime r ≠ d) as Hnew.
  { intros r Hr. rewrite Forall_forall in Hn. specialize (Hn r Hr). simpl in Hn. lia. }
  destruct (decide (sec_id ∈ all_secs data stock_list
                    ∧ d ∈ as_of_dates (id_data data sec_id))) as [[Hs Hd]|Hno].
  - rewrite decide_True; [done|].
    apply elem_of_all_secs in Hs as [(r & Hr & Hid) Hreq].
    apply elem_of_as_of_dates in Hd as (r' & Hr' & Hd).
    apply elem_of_id_data in Hr' as [Hr' Hid'].
    split.
    + apply elem_of_all_secs. split; [|done]. exists r.
      split; [|done]. apply elem_of_app. by left.
    + apply elem_of_as_of_dates. exists r'. split; [|done].
      apply elem_of_id_data. split; [|done]. apply elem_of_app. by left.
  - rewrite decide_False; [done|]. intros [Hs Hd]. apply Hno.
    apply elem_of_as_of_dates in Hd as (r' & Hr' & Hd).
    apply elem_of_id_data in Hr' as [Hr' Hid'].
    apply elem_of_app in Hr' as [Hr'|Hr']; [|by apply Hnew in Hr'].
    apply elem_of_all_secs in Hs as [_ Hreq].
    split.
    + apply elem_of_all_secs. split; [|done]. by exists r'.
    + apply elem_of_as_of_dates. exists r'. split; [|done].
      by apply elem_of_id_data.
Qed.

Lemma yearly_rows_app yearly data new :
  yearly_rows yearly (data ++ new) = yearly_rows yearly data ++ yearly_rows yearly new.
Proof. destruct yearly; simpl; [apply List.filter_app|done]. Qed.

(** C1.  The scalar stored under (date, security) is computed from the
    rows observed on or before that date only: it is the same on the
    input cut at the date, and appending rows observed after the date
    changes neither the scalar nor what the loops store under
    (date, security), with or without the yearly filter. *)
Theorem no_look_ahead (factor_name : string) (agg_func : list entry → option value)
    (data new : list row) (stock_list : option (list string)) (yearly : bool)
    (sec_id : string) (d : date) :
  Forall (fun r => d < DateTime r) new →
  output_data factor_name agg_func data sec_id d
    = output_data factor_name agg_func
        (List.filter (fun r => DateTime r <=? d) data) sec_id d ∧
  output_data factor_name agg_func (data ++ new) sec_id d
    = output_data factor_name agg_func data sec_id d ∧
  assoc (d, sec_id)
    (storage factor_name agg_func (yearly_rows yearly (data ++ new)) stock_list)
    = assoc (d, sec_id)
        (storage factor_name agg_func (yearly_rows yearly data) stock_list).
Proof.
  intros Hn. split_and!.
  - unfold output_data, date_id_data, id_data.
    by rewrite (List_filter_comm _ (fun r => DateTime r <=? d)), List_filter_idemp.
  - by apply output_data_append.
  - rewrite yearly_rows_app. apply storage_append.
    destruct yearly; simpl; [|done]. by apply Forall_List_filter.
Qed.

Lemma no_look_ahead_witness :
  Forall (fun r => 20240201 < DateTime r) [report 20240301 20231231 7] ∧
  assoc (20240201, "X")
    (storage "profit" latest
       (yearly_rows true ([report 20240201 20231231 5] ++ [report 20240301 20231231 7]))
       None)
  = assoc (20240201, "X")
      (storage "profit" latest (yearly_rows true [report 20240201 20231231 5]) None).
Proof.
  assert (Forall (fun r => 20240201 < DateTime r) [report 20240301 20231231 7]) as H.
  { repeat constructor. }
  split; [exact H|].
  apply (no_look_ahead "profit" latest _ _ None true "X" 20240201 H).
Defined.

(** *** Which restatement is kept *)

Lemma stored_in_order_strongly data :
  stored_in_order data → StronglySorted (fun a b => DateTime a ≤ DateTime b) data.
Proof. apply Sorted_StronglySorted. intros x y z. lia. Qed.

Lemma last_valid_snoc l x : is_Some x → last_valid (l ++ [x]) = x.
Proof.
  intros [v ->]. unfold last_valid. by rewrite foldl_app.
Qed.

Lemma elem_of_group_of p df r :
  r ∈ group_of p df ↔ r ∈ df ∧ report_period r = p.
Proof. unfold group_of. rewrite elem_of_List_filter. by rewrite Z.eqb_eq. Qed.

Lemma elem_of_date_id_data df d r :
  r ∈ date_id_data df d ↔ r ∈ df ∧ DateTime r ≤ d.
Proof. unfold date_id_data. rewrite elem_of_List_filter. by rewrite Z.leb_le. Qed.

Lemma groupby_last_eq factor_name df :
  groupby_last factor_name df
  = omap (group_entry factor_name df)
      (merge_sort Z.le (remove_dups (report_period <$> df))).
Proof. done. Qed.

Lemma group_entry_period factor_name df p e :
  group_entry factor_name df p = Some e → e_period e = p.
Proof.
  unfold group_entry. destruct (last (group_of p df)); simpl; [|done].
  by intros [= <-].
Qed.

Lemma group_entry_is_Some factor_name df p :
  p ∈ report_period <$> df → is_Some (group_entry factor_name df p).
Proof.
  intros (r & -> & Hr)%list_elem_of_fmap. unfold group_entry.
  destruct (last (group_of (report_period r) df)) as [r'|] eqn:Hl; simpl; [done|].
  apply last_None in Hl.
  assert (r ∈ group_of (report_period r) df) as Hin by (by apply elem_of_group_of).
  rewrite Hl in Hin. by apply elem_of_nil in Hin.
Qed.

Lemma omap_keys {A B} (f : A → option B) (key : B → A) (l : list A) :
  (∀ x, x ∈ l → ∃ y, f x = Some y ∧ key y = x) →
  key <$> omap f l = l.
Proof.
  induction l as [|x l IH]; intros H; csimpl; [done|].
  destruct (H x) as (y & Hy & Hk); [by left|]. rewrite Hy. csimpl.
  rewrite Hk, IH; [done|]. intros x' Hx'. apply H. by right.
Qed.

Lemma groupby_last_periods factor_name df :
  e_period <$> groupby_last factor_name df
  = merge_sort Z.le (remove_dups (report_period <$> df)).
Proof.
  rewrite groupby_last_eq. apply omap_keys. intros p Hp.
  apply elem_of_sorted_set in Hp.
  destruct (group_entry_is_Some factor_name df p Hp) as [e He].
  exists e. split; [done|]. by eapply group_entry_period.
Qed.

(** C2, as stated, fails: [last()] keeps the row stored last, which is the
    latest restatement only if the rows are stored in observation order.
    With the restatement stored ahead of the first report, the build as of
    Mar 1 keeps the Feb 1 row and yields 5. *)
Lemma latest_restatement_counterexample :
  ¬ (∀ factor_name data sec_id d e r,
       e ∈ groupby_last factor_name (date_id_data (id_data data sec_id) d) →
       r ∈ date_id_data (id_data data sec_id) d →
       report_period r = e_period e →
       DateTime r ≤ e_DateTime e) ∧
  storage "profit" latest (reverse example_reports) None
    = [(20240201, "X", Some (Num 5)); (20240301, "X", Some (Num 5))].
Proof.
  split; [|reflexivity].
  intros H.
  specialize (H "profit" (reverse example_reports) "X" 20240301
                {| e_DateTime := 20240201; e_ID := "X"; e_period := 20231231;
                   e_value := Some (Num 5) |}
                (report 20240301 20231231 7)).
  assert (20240301 ≤ 20240201) as Habs; [|lia].
  apply H.
  - apply (bool_decide_unpack _). exact I.
  - apply elem_of_date_id_data. split; [|simpl; lia].
    apply elem_of_id_data. split; [|done]. apply elem_of_reverse. by right; left.
  - reflexivity.
Qed.

(** C2, amended.  As of date [d], the rows of a security observed by [d]
    give one kept row per report period.  The kept row carries the
    observation date of the row of that period stored last, and the last
    non-missing value of the period in stored order, which is the value
    of that row when it has one.  When the rows are stored in observation
    order, no row of the period known by [d] is observed later than the
    kept one.  On the example, with the latest-period aggregator, the
    build yields 5 as of Feb 1 and 7 as of Mar 1. *)
Theorem latest_restatement (factor_name : string) (data : list row)
    (sec_id : string) (d : date) :
  let known := date_id_data (id_data data sec_id) d in
  let kept := groupby_last factor_name known in
  (∀ p, p ∈ e_period <$> kept ↔ ∃ r, r ∈ known ∧ report_period r = p) ∧
  NoDup (e_period <$> kept) ∧
  (∀ e, e ∈ kept →
     ∃ r, last (group_of (e_period e) known) = Some r ∧
          e_DateTime e = DateTime r ∧ e_ID e = ID r ∧
          e_value e = last_valid (factor_of factor_name <$> group_of (e_period e) known) ∧
          (is_Some (factor_of factor_name r) → e_value e = factor_of factor_name r) ∧
          (stored_in_order data →
           ∀ r', r' ∈ known → report_period r' = e_period e →
                 DateTime r' ≤ DateTime r)) ∧
  storage "profit" latest example_reports None
    = [(20240201, "X", Some (Num 5)); (20240301, "X", Some (Num 7))].
Proof.
  intros known kept. split_and!; [| | |reflexivity].
  - intros p. unfold kept. rewrite groupby_last_periods, elem_of_sorted_set.
    rewrite list_elem_of_fmap. split; intros (r & ? & ?); by exists r.
  - unfold kept. rewrite groupby_last_periods. apply NoDup_sorted_set.
  - intros e He. unfold kept in He. rewrite groupby_last_eq in He.
    apply list_elem_of_omap in He as (p & _ & He).
    pose proof (group_entry_period _ _ _ _ He) as Hp. rewrite Hp.
    unfold group_entry in He.
    destruct (last (group_of p known)) as [r|] eqn:Hl; [|done].
    simpl in He. injection He as <-. simpl. clear Hp.
    exists r. split_and!; try done.
    + intros Hv. apply last_Some in Hl as [g Hg].
      rewrite Hg, fmap_app. simpl. by rewrite last_valid_snoc.
    + intros Hs r' Hr' Hper.
      apply stored_in_order_strongly in Hs.
      assert (StronglySorted (fun a b => DateTime a ≤ DateTime b)
                (group_of p known)) as Hg.
      { unfold group_of, known, date_id_data, id_data.
        by repeat apply strongly_filter. }
      assert (r' ∈ group_of p known) as Hin
        by (by apply elem_of_group_of).
      apply last_Some in Hl as [g Hl]. rewrite Hl in Hg, Hin.
      apply elem_of_app in Hin as [Hin|Hin].
      * apply (StronglySorted_app_1_elem_of
                 (fun a b => DateTime a ≤ DateTime b) g [r] r' r Hg Hin).
        by left.
      * apply list_elem_of_singleton in Hin as ->. lia.
Qed.

Lemma latest_restatement_witness :
  stored_in_order example_reports ∧
  ∃ r, last (group_of 20231231
               (date_id_data (id_data example_reports "X") 20240301)) = Some r ∧
       DateTime r = 20240301 ∧
       ∀ r', r' ∈ date_id_data (id_data example_reports "X") 20240301 →
             report_period r' = 20231231 → DateTime r' ≤ DateTime r.
Proof.
  assert (stored_in_order example_reports) as Hs.
  { repeat constructor. simpl. lia. }
  split; [done|].
  destruct (latest_restatement "profit" example_reports "X" 20240301)
    as (_ & _ & H & _).
  destruct (H {| e_DateTime := 20240301; e_ID := "X"; e_period := 20231231;
                 e_value := Some (Num 7) |})
    as (r & Hl & Hd & _ & _ & _ & Hmax).
  { apply (bool_decide_unpack _). exact I. }
  exists r. split; [done|]. split; [done|]. by apply Hmax.
Defined.

(** ** Conformance: forward fill twice *)

Lemma fill_row_nil here : fill_row [] here = here.
Proof. by destruct here. Qed.

Lemma fill_row_idemp above here :
  fill_row above (fill_row above here) = fill_row above here.
Proof.
  revert above. induction here as [|h here IH]; intros [|a above]; simpl; try done.
  rewrite IH. by destruct h, a.
Qed.

Lemma length_fill_row above here : length (fill_row above here) = length here.
Proof.
  revert above. induction here as [|h here IH]; intros [|a above]; simpl; try done.
  by rewrite IH.
Qed.

Lemma settled_ffill_from above b : settled above (ffill_from above b).
Proof.
  revert above. induction b as [|[d r] b IH]; intros above; simpl; [done|].
  split; [apply fill_row_idemp|apply IH].
Qed.

Lemma ffill_from_settled above b : settled above b → ffill_from above b = b.
Proof.
  revert above. induction b as [|[d r] b IH]; intros above; simpl; [done|].
  intros [Hr Hb]. rewrite Hr. by rewrite IH.
Qed.

Lemma settled_weaken above b : settled above b → settled [] b.
Proof.
  destruct b as [|[d r] b]; simpl; [done|]. intros [_ Hb].
  split; [apply fill_row_nil|done].
Qed.

Lemma not_before_mono start_date x y :
  not_before start_date x = true → x ≤ y → not_before start_date y = true.
Proof.
  destruct start_date as [s|]; simpl; [|done]. rewrite !Z.leb_le. lia.
Qed.

(** On an ascending axis the slice from [start_date] is a tail, and a
    tail of a settled body is settled. *)
Lemma settled_slice start_date above (b : list (date * list (option value))) :
  StronglySorted Z.lt (b.*1) →
  settled above b →
  settled [] (List.filter (fun r => not_before start_date r.1) b).
Proof.
  revert above. induction b as [|[d r] b IH]; intros above Hs Hb; [done|].
  rewrite fmap_cons in Hs. apply StronglySorted_cons in Hs as [Hd Hs].
  destruct (not_before start_date d) eqn:Hn.
  - rewrite filter_all; [by eapply settled_weaken|].
    constructor; [done|]. rewrite Forall_fmap in Hd.
    eapply Forall_impl; [exact Hd|]. intros [d' r'] Hlt. simpl in *.
    eapply not_before_mono; [done|lia].
  - simpl. rewrite Hn. destruct Hb as [_ Hb]. by eapply IH.
Qed.

Lemma fill_row_fmap {A} (f1 f2 : A → option value) (t : list A) :
  fill_row (f1 <$> t) (f2 <$> t) = (fun c => fill1 (f1 c) (f2 c)) <$> t.
Proof. induction t as [|c t IH]; csimpl; [done|]. by rewrite IH. Qed.

Lemma fill1_pick (cols : list string) (r1 r2 : list (option value)) c :
  fill_row r1 r2 = r2 → length r1 = length r2 →
  fill1 (default None (assoc c (zip cols r1))) (default None (assoc c (zip cols r2)))
  = default None (assoc c (zip cols r2)).
Proof.
  revert r1 r2. induction cols as [|c0 cols IH]; intros r1 r2 Hf Hl; [done|].
  destruct r2 as [|x2 r2], r1 as [|x1 r1]; simpl in *; try done.
  injection Hf as Hx Hf. injection Hl as Hl.
  case_decide; simpl; [done|]. by apply IH.
Qed.

(** Picking the columns of a settled rectangular body leaves it settled. *)
Lemma settled_pick (cols target : list string) (n : nat) above
    (b : list (date * list (option value))) :
  let pick r := (fun c => default None (assoc c (zip cols r))) <$> target in
  Forall (fun r => length r.2 = n) b → length above = n →
  settled above b →
  settled (pick above) ((fun '(d, r) => (d, pick r)) <$> b).
Proof.
  intros pick. revert above. induction b as [|[d r] b IH]; intros above Hn Ha Hb; [done|].
  apply Forall_cons in Hn as [Hr Hn]. destruct Hb as [Hf Hb]. simpl in Hr.
  csimpl. split; [|by apply IH].
  unfold pick. rewrite fill_row_fmap. apply list_fmap_ext. intros _ c _.
  apply fill1_pick; [done|congruence].
Qed.

Lemma settled_pick_top (cols target : list string) (n : nat)
    (b : list (date * list (option value))) :
  Forall (fun r => length r.2 = n) b →
  settled [] b →
  settled [] ((fun '(d, r) =>
                 (d, (fun c => default None (assoc c (zip cols r))) <$> target)) <$> b).
Proof.
  destruct b as [|[d r] b]; [done|]. intros Hn [_ Hb].
  apply Forall_cons in Hn as [Hr Hn]. csimpl.
  split; [apply fill_row_nil|]. by apply (settled_pick cols target n).
Qed.

Lemma min_head x l : Forall (Z.lt x) l → foldr Z.min x l = x.
Proof. induction 1 as [|y l Hy _ IH]; simpl; [done|]. rewrite IH. lia. Qed.

Lemma index_min_sorted df x l :
  index df = x :: l → StronglySorted Z.lt (index df) → index_min df = OK x.
Proof.
  intros Hi Hs. unfold index_min. rewrite Hi in *.
  apply StronglySorted_cons in Hs as [Hx _]. by rewrite min_head.
Qed.

Lemma List_filter_filter {A} (f g : A → bool) (l : list A) :
  List.filter f (List.filter g l) = List.filter (fun x => g x && f x) l.
Proof.
  induction l as [|x l IH]; simpl; [done|].
  destruct (g x); simpl; [|done]. destruct (f x); by rewrite IH.
Qed.

Lemma List_filter_ext_elem {A} (f g : A → bool) (l : list A) :
  (∀ x, x ∈ l → f x = g x) → List.filter f l = List.filter g l.
Proof.
  intros H. apply List.filter_ext_in. intros x Hx. by apply H, list_elem_of_In.
Qed.

Lemma head_least x t y : StronglySorted Z.lt (x :: t) → y ∈ x :: t → x ≤ y.
Proof.
  intros [Hx _]%StronglySorted_cons [->|Hy]%elem_of_cons; [lia|].
  rewrite Forall_forall in Hx. specialize (Hx y Hy). lia.
Qed.

(** The window resolved from the first row of a conformed frame gives back
    the rows of that frame. *)
Lemma window_again cal first end_date start_date r0 t :
  StronglySorted Z.lt cal →
  List.filter (not_before start_date)
    (all_but_last (List.filter (in_window (Some first) end_date) cal)) = r0 :: t →
  all_but_last (List.filter (in_window (Some r0) end_date) cal) = r0 :: t.
Proof.
  intros Hcal Hrows. unfold all_but_last in *.
  set (dates := List.filter (in_window (Some first) end_date) cal) in *.
  assert (StronglySorted Z.lt dates) as Hdates by (by apply strongly_filter).
  assert (r0 ∈ removelast dates ∧ not_before start_date r0 = true) as [Hr0 Hnb].
  { apply elem_of_List_filter. rewrite Hrows. by left. }
  destruct (last dates) as [w|] eqn:Hw; last first.
  { apply last_None in Hw. rewrite Hw in Hr0. by apply elem_of_nil in Hr0. }
  apply last_removelast in Hw. set (W0 := removelast dates) in *.
  rewrite Hw in Hdates.
  apply StronglySorted_app in Hdates as (Hlt & HW0 & _).
  assert (r0 < w) as Hr0w by (apply Hlt; [done|by left]).
  assert (in_window (Some first) end_date r0 = true) as Hwin.
  { assert (r0 ∈ dates) as Hin by (rewrite Hw; apply elem_of_app; by left).
    by apply elem_of_List_filter in Hin as [_ ?]. }
  assert (List.filter (in_window (Some r0) end_date) cal
          = List.filter (Z.leb r0) dates) as ->.
  { unfold dates. rewrite List_filter_filter. apply List_filter_ext_elem.
    intros x _. unfold in_window in *.
    apply andb_true_iff in Hwin as [Hf _]. apply Z.leb_le in Hf.
    destruct (r0 <=? x) eqn:Hx; [|by rewrite andb_false_r].
    apply Z.leb_le in Hx. rewrite andb_true_r.
    assert ((first <=? x) = true) as -> by (apply Z.leb_le; lia). done. }
  rewrite Hw, List.filter_app. simpl.
  assert ((r0 <=? w) = true) as -> by (apply Z.leb_le; lia).
  rewrite removelast_snoc. rewrite <- Hrows.
  apply List_filter_ext_elem. intros x Hx.
  destruct (not_before start_date x) eqn:Hn.
  - apply Z.leb_le. apply (head_least r0 t).
    + rewrite <- Hrows. by apply strongly_filter.
    + rewrite <- Hrows. by apply elem_of_List_filter.
  - apply Z.leb_gt. destruct (decide (r0 ≤ x)) as [Hle|]; [|lia].
    by rewrite (not_before_mono _ _ _ Hnb Hle) in Hn.
Qed.

Lemma reindex_same q : reindex (index q) q = OK q.
Proof. unfold reindex. by rewrite decide_True. Qed.

Lemma reindex_columns_same q : reindex_columns (columns q) q = OK q.
Proof. unfold reindex_columns. by rewrite decide_True. Qed.

Lemma forward_fill_settled q : settled [] (body q) → forward_fill q = q.
Proof.
  intros H. unfold forward_fill. rewrite ffill_from_settled by done. by destruct q.
Qed.

Lemma body_loc_from start_date df q :
  is_monotonic_increasing (index df) = true →
  loc_from start_date df = OK q →
  body q = List.filter (fun r => not_before start_date r.1) (body df).
Proof.
  intros Hm. unfold loc_from. destruct start_date as [s|]; simpl.
  - rewrite Hm. intros ?. by simplify_eq.
  - intros ?. simplify_eq. by rewrite filter_true.
Qed.

Lemma loc_from_all start_date q :
  is_monotonic_increasing (index q) = true →
  Forall (fun d => not_before start_date d = true) (index q) →
  loc_from start_date q = OK q.
Proof.
  intros Hm Hall. unfold loc_from. destruct start_date as [s|]; [|done].
  rewrite Hm. simpl in Hall. rewrite filter_all; [by destruct q|].
  unfold index in Hall. by rewrite Forall_fmap in Hall.
Qed.

Lemma rectangular_reindex target df a :
  rectangular df → reindex target df = OK a → rectangular a.
Proof.
  unfold reindex, rectangular. intros Hr.
  repeat case_decide; intros ?; simplify_eq; [done|]. simpl.
  rewrite Forall_fmap. apply Forall_forall. intros d _. simpl.
  destruct (assoc d (body df)) as [r|] eqn:Hd; simpl; [|by rewrite length_replicate].
  assert ((d, r) ∈ body df) as Hin.
  { clear -Hd. induction (body df) as [|[d' r'] b IH]; simpl in Hd; [done|].
    case_decide; simplify_eq; [by left|]. right. by apply IH. }
  rewrite Forall_forall in Hr. by apply (Hr (d, r)).
Qed.

Lemma Forall_length_ffill_from n above (b : list (date * list (option value))) :
  Forall (fun r => length r.2 = n) b →
  Forall (fun r => length r.2 = n) (ffill_from above b).
Proof.
  intros H. revert above. induction H as [|[d r] b Hr _ IH]; intros above; simpl.
  - constructor.
  - constructor; [|apply IH]. simpl in *. by rewrite length_fill_row.
Qed.

(** The body of a frame conformed with forward fill is settled. *)
Lemma conformed_settled self df start_date end_date stock_list q :
  ascending (calendar self) → rectangular df →
  _conform_df self df true start_date end_date stock_list = OK q →
  settled [] (body q).
Proof.
  intros Hc Hrect H.
  apply conform_steps in H as (dates & aligned & rows & Hd & Ha & Hr & Hq).
  pose proof (window_strongly _ _ _ _ _ _ Hc Hd) as Hs.
  pose proof (rectangular_reindex _ _ _ Hrect Ha) as Hra.
  apply index_reindex in Ha as [Hia Hca].
  assert (StronglySorted Z.lt (index (forward_fill aligned))) as Hsf.
  { rewrite index_forward_fill, Hia. by apply strongly_removelast. }
  pose proof (columns_loc_from _ _ _ Hr) as Hcr.
  apply body_loc_from in Hr; [|by apply strongly_monotonic].
  assert (settled [] (body rows)) as Hsettled.
  { rewrite Hr. apply (settled_slice start_date []); [done|].
    apply settled_ffill_from. }
  assert (Forall (fun r => length r.2 = length (columns rows)) (body rows)) as Hrr.
  { rewrite Hr, Hcr. apply Forall_List_filter. simpl.
    by apply Forall_length_ffill_from. }
  unfold reindex_columns in Hq. repeat case_decide; simplify_eq; [done|].
  simpl. by apply (settled_pick_top _ _ (length (columns rows))).
Qed.

Lemma elem_of_removelast {A} (l : list A) x : x ∈ removelast l → x ∈ l.
Proof.
  intros Hx. destruct (last l) as [w|] eqn:Hw.
  - rewrite (last_removelast _ _ Hw). apply elem_of_app. by left.
  - apply last_None in Hw. by subst.
Qed.

(** C6, as stated, fails: a panel that is aligned on every date of the
    calendar window, has no missing cell and has the universe as columns
    still loses its last row, because the last date of the window is not
    a row of a conformed panel. *)
Lemma conform_aligned_counterexample :
  ¬ (∀ self p start_date end_date stock_list,
       ascending (calendar self) → rectangular p →
       select_dates (calendar self) start_date end_date = OK (index p) →
       forward_fill p = p →
       columns p = universe self stock_list →
       _conform_df self p true start_date end_date stock_list = OK p).
Proof.
  intros H.
  specialize (H demo_reader
                {| columns := ["A"; "B"];
                   body := [(20240101, [Some (Num 10); Some (Num 1)]);
                            (20240102, [Some (Num 10); Some (Num 2)]);
                            (20240103, [Some (Num 30); Some (Num 3)]);
                            (20240104, [Some (Num 30); Some (Num 4)])] |}
                None None None).
  assert (ascending (calendar demo_reader)) as Hasc by repeat constructor.
  specialize (H Hasc).
  assert (OK {| columns := ["A"; "B"];
                body := [(20240101, [Some (Num 10); Some (Num 1)]);
                         (20240102, [Some (Num 10); Some (Num 2)]);
                         (20240103, [Some (Num 30); Some (Num 3)])] |}
          = OK {| columns := ["A"; "B"];
                body := [(20240101, [Some (Num 10); Some (Num 1)]);
                         (20240102, [Some (Num 10); Some (Num 2)]);
                         (20240103, [Some (Num 30); Some (Num 3)]);
                         (20240104, [Some (Num 30); Some (Num 4)])] |}) as Habs;
    [|discriminate Habs].
  apply H; [repeat constructor|reflexivity|reflexivity|reflexivity].
Qed.

(** C6, amended.  Conforming with forward fill is idempotent on its own
    results: on an ascending calendar, a rectangular frame that has been
    conformed with forward fill (so that its rows are [dates[:-1]] of the
    window, not before [start_date]) and has at least one row is returned
    unchanged when it is conformed again with the same bounds and
    universe. *)
Theorem conform_idempotent (self : reader) (df : Panel)
    (start_date end_date : option date) (stock_list : option (list string))
    (q : Panel) :
  ascending (calendar self) → rectangular df →
  _conform_df self df true start_date end_date stock_list = OK q →
  index q ≠ [] →
  _conform_df self q true start_date end_date stock_list = OK q.
Proof.
  intros Hc Hrect H Hne.
  pose proof (conformed_settled _ _ _ _ _ _ Hc Hrect H) as Hsettled.
  pose proof (conform_ffill_index _ _ _ _ _ _ Hc H)
    as (first & dates & _ & Hd & Hi & Hcq).
  pose proof (ascending_strongly _ Hc) as Hcal.
  assert (StronglySorted Z.lt (index q)) as Hsq.
  { rewrite Hi. apply strongly_filter, strongly_removelast. rewrite Hd.
    by apply strongly_filter. }
  assert (Forall (fun d => not_before start_date d = true) (index q)) as Hnb.
  { rewrite Hi. apply Forall_forall. by intros d [_ ?]%elem_of_List_filter. }
  destruct (index q) as [|r0 t] eqn:Hiq; [done|].
  rewrite Hd in Hi. symmetry in Hi.
  pose proof (window_again _ _ _ _ _ _ Hcal Hi) as Hw.
  assert (select_dates (calendar self) (Some r0) end_date
          = OK (List.filter (in_window (Some r0) end_date) (calendar self))) as Hsel.
  { unfold select_dates. destruct end_date as [e|]; [|done].
    assert (r0 ∈ List.filter (in_window (Some r0) (Some e)) (calendar self)) as Hin.
    { apply elem_of_removelast. unfold all_but_last in Hw. rewrite Hw. by left. }
    apply elem_of_List_filter in Hin as [_ Hin]. unfold in_window in Hin.
    apply andb_true_iff in Hin as [_ Hin]. apply Z.leb_le in Hin.
    assert ((e <? r0) = false) as -> by (apply Z.ltb_ge; lia). done. }
  unfold _conform_df.
  rewrite (index_min_sorted q r0 t) by (by rewrite ?Hiq). cbn [rbind].
  rewrite Hsel. cbn [rbind]. rewrite Hw, <- Hiq, reindex_same. cbn [rbind].
  rewrite forward_fill_settled by done.
  rewrite loc_from_all; [| |by rewrite Hiq].
  - cbn [rbind]. rewrite <- Hcq. apply reindex_columns_same.
  - rewrite Hiq. by apply strongly_monotonic.
Qed.

Lemma conform_idempotent_witness :
  ascending (calendar demo_reader) ∧ rectangular demo_panel ∧
  _conform_df demo_reader demo_panel true (Some 20240102) None None
    = OK demo_conformed ∧
  index demo_conformed ≠ [] ∧
  _conform_df demo_reader demo_conformed true (Some 20240102) None None
    = OK demo_conformed.
Proof.
  assert (ascending (calendar demo_reader)) as Hasc by repeat constructor.
  assert (rectangular demo_panel) as Hrect by repeat constructor.
  assert (index demo_conformed ≠ []) as Hne by done.
  split_and!; [exact Hasc|exact Hrect|reflexivity|exact Hne|].
  apply (conform_idempotent demo_reader demo_panel (Some 20240102) None None
           demo_conformed Hasc Hrect); [reflexivity|exact Hne].
Defined.

(** ** The reshape inside [get_factor] *)

Lemma two_keyed_keys t factor_name :
  two_keyed t factor_name →
  List.filter (fun it => mem it (tbl_columns t)) canonical_keys = [col_DateTime; col_ID].
Proof.
  intros (_ & Hd & Hi & Hp). unfold canonical_keys. simpl.
  apply mem_spec in Hd. apply mem_spec in Hi. rewrite Hd, Hi.
  destruct (mem col_report_period (tbl_columns t)) eqn:Hm; [|done].
  by apply mem_spec in Hm.
Qed.

Lemma get_factor_two_keyed self table_name factor_name ffill start_date end_date
    stock_list t :
  tables self !! lower table_name = Some t → two_keyed t factor_name →
  outcome (get_factor self table_name factor_name ffill start_date end_date stock_list)
  = let+ p := unstack (long_series factor_name (tbl_rows t)) in
    let+ q := _conform_df self p ffill start_date end_date stock_list in
    OK (Wide q).
Proof.
  intros Ht Hk. pose proof (two_keyed_keys _ _ Hk) as Hpk.
  destruct Hk as (Hf & Hd & Hi & Hp).
  unfold get_factor. rewrite outcome_bind, check_outcome, Ht.
  apply mem_spec in Hf as Hf'. rewrite Hf', Hpk. cbn [rbind].
  rewrite outcome_bind, read_outcome, Ht.
  rewrite find_none_subset; last first.
  { intros c Hc.
    apply elem_of_app in Hc as [Hc|Hc%list_elem_of_singleton]; [|by subst].
    apply elem_of_cons in Hc as [->|Hc]; [done|].
    apply elem_of_cons in Hc as [->|Hc]; [done|]. by apply elem_of_nil in Hc. }
  cbn [rbind]. rewrite decide_True by (simpl; lia). rewrite decide_True by done.
  rewrite outcome_bind, outcome_lift.
  destruct (unstack _) as [p|e]; cbn [rbind]; [|done].
  rewrite outcome_bind, outcome_lift.
  by destruct (_conform_df _ _ _ _ _ _).
Qed.

(** C8.  On a table keyed by exactly (DateTime, ID), [get_factor] reshapes
    the rows read by unstacking them.  If some (DateTime, ID) pair occurs
    at two positions the reshape cannot be done and [get_factor] raises
    pandas' duplicate-entries error.  If every pair occurs once, the frame
    handed to [_conform_df] is the pivot: its rows are the dates and its
    columns the securities of the rows read, neither repeated; the cell at
    (date, security) is the factor of the row with that key; a cell no row
    stands for is missing. *)
Theorem reshape_spec (self : reader) (table_name factor_name : string)
    (ffill : bool) (start_date end_date : option date)
    (stock_list : option (list string)) (t : table) :
  tables self !! lower table_name = Some t → two_keyed t factor_name →
  let s := long_series factor_name (tbl_rows t) in
  ((∃ i j k, i ≠ j ∧ s.*1 !! i = Some k ∧ s.*1 !! j = Some k) →
     outcome (get_factor self table_name factor_name ffill start_date end_date
                stock_list) = Raise DuplicateKeyError) ∧
  ((∀ i j k, s.*1 !! i = Some k → s.*1 !! j = Some k → i = j) →
     ∃ p, outcome (get_factor self table_name factor_name ffill start_date end_date
                     stock_list)
          = (let+ q := _conform_df self p ffill start_date end_date stock_list in
             OK (Wide q)) ∧
       (∀ d, d ∈ index p ↔ ∃ r, r ∈ tbl_rows t ∧ DateTime r = d) ∧
       (∀ c, c ∈ columns p ↔ ∃ r, r ∈ tbl_rows t ∧ ID r = c) ∧
       NoDup (index p) ∧ NoDup (columns p) ∧
       (∀ r, r ∈ tbl_rows t →
          cell p (DateTime r) (ID r) = Some (fields r !! factor_name)) ∧
       (∀ d c, d ∈ index p → c ∈ columns p →
          (∀ r, r ∈ tbl_rows t → ¬ (DateTime r = d ∧ ID r = c)) →
          cell p d c = Some None)).
Proof.
  intros Ht Hk s. rewrite (get_factor_two_keyed _ _ _ _ _ _ _ t Ht Hk). fold s.
  assert (∀ d c v, (d, c, v) ∈ s ↔
            ∃ r, r ∈ tbl_rows t ∧ DateTime r = d ∧ ID r = c ∧
                 fields r !! factor_name = v) as Hs.
  { intros d c v. unfold s, long_series. rewrite list_elem_of_fmap.
    split.
    - intros (r & [= -> -> ->] & Hr). by exists r.
    - intros (r & Hr & <- & <- & <-). by exists r. }
  destruct (unstack_pivot s) as [Hdup Hpiv]. split.
  - intros Hd. by rewrite (Hdup Hd).
  - intros Hu. destruct (Hpiv Hu) as (p & Hp & Hi & Hc & Hni & Hnc & Hv & Hm).
    exists p. rewrite Hp. split; [done|]. split_and!; try done.
    + intros d. rewrite Hi. split.
      * intros (c & v & (r & Hr & <- & _)%Hs). by exists r.
      * intros (r & Hr & <-). exists (ID r), (fields r !! factor_name).
        apply Hs. by exists r.
    + intros c. rewrite Hc. split.
      * intros (d & v & (r & Hr & _ & <- & _)%Hs). by exists r.
      * intros (r & Hr & <-). exists (DateTime r), (fields r !! factor_name).
        apply Hs. by exists r.
    + intros r Hr. apply Hv, Hs. by exists r.
    + intros d c Hd Hcc Hno. apply Hm; [done|done|].
      intros ([[d' c'] v] & [= <- <-] & (r & Hr & <- & <- & _)%Hs)%list_elem_of_fmap.
      by apply (Hno r).
Qed.

Lemma reshape_spec_witness :
  outcome (get_factor
             (demo_prices [quote 20240101 "A" 10; quote 20240103 "A" 30;
                           quote 20240101 "A" 11])
             "Prices" "close" false None None None)
    = Raise DuplicateKeyError.
Proof.
  eapply (reshape_spec _ "Prices" "close" false None None None).
  - reflexivity.
  - split_and!; apply (bool_decide_unpack _); exact I.
  - exists 0%nat, 2%nat, (20240101, "A"). done.
Defined.

(** ** The point-in-time build, end to end *)





Lemma assoc_Some_elem {K A} `{EqDecision K} (k : K) (a : A) (l : list (K * A)) :
  assoc k l = Some a → (k, a) ∈ l.
Proof.
  induction l as [|[k' a'] l IH]; simpl; [done|].
  case_decide; intros ?; simplify_eq; [by left|]. right. by apply IH.
Qed.

Lemma assoc_Some_key {K A} `{EqDecision K} (k : K) (a : A) (l : list (K * A)) :
  assoc k l = Some a → k ∈ l.*1.
Proof.
  intros H%assoc_Some_elem. apply list_elem_of_fmap. by exists (k, a).
Qed.

Lemma assoc_zip_replicate {K A} `{EqDecision K} (k : K) (a : A) (t : list K) :
  assoc k (zip t (replicate (length t) a)) = if decide (k ∈ t) then Some a else None.
Proof.
  rewrite <- (assoc_zip_fmap (fun _ => a) k t). do 2 f_equal.
  induction t as [|k' t IH]; csimpl; [done|]. by rewrite IH.
Qed.








(** * Further properties *)

(** ** The order of security identifiers *)

Lemma ascii_compare_N a b :
  Ascii.compare a b = N.compare (Ascii.N_of_ascii a) (Ascii.N_of_ascii b).
Proof. done. Qed.

Lemma N_of_ascii_inj a b : Ascii.N_of_ascii a = Ascii.N_of_ascii b → a = b.
Proof.
  intros H. rewrite <- (Ascii.ascii_N_embedding a), <- (Ascii.ascii_N_embedding b).
  by rewrite H.
Qed.

Lemma string_compare_trans_le s1 s2 s3 :
  String.compare s1 s2 ≠ Gt → String.compare s2 s3 ≠ Gt → String.compare s1 s3 ≠ Gt.
Proof.
  revert s2 s3. induction s1 as [|c1 s1 IH]; intros [|c2 s2] [|c3 s3]; simpl; try done.
  rewrite !ascii_compare_N.
  destruct (N.compare_spec (Ascii.N_of_ascii c1) (Ascii.N_of_ascii c2)) as [H12|H12|H12];
  destruct (N.compare_spec (Ascii.N_of_ascii c2) (Ascii.N_of_ascii c3)) as [H23|H23|H23];
  destruct (N.compare_spec (Ascii.N_of_ascii c1) (Ascii.N_of_ascii c3)) as [H13|H13|H13];
    try done; try lia.
  apply IH.
Qed.

Lemma string_le_compare s1 s2 : string_le s1 s2 ↔ String.compare s1 s2 ≠ Gt.
Proof.
  unfold string_le, String.leb. destruct (String.compare s1 s2); split; done.
Qed.

#[global] Instance string_le_trans : Transitive string_le.
Proof.
  intros s1 s2 s3. rewrite !string_le_compare. apply string_compare_trans_le.
Qed.

#[global] Instance string_le_total : Total string_le.
Proof. intros s1 s2. apply String.leb_total. Qed.

#[global] Instance string_le_antisym : AntiSymm (=) string_le.
Proof. intros s1 s2. apply String.leb_antisym. Qed.

(** ** Listed stocks *)

Lemma get_listed_stock_outcome self t date :
  listing_table self t →
  outcome (get_listed_stock self date) = OK (listed_on (tbl_rows t) date).
Proof.
  intros (Ht & Hd & Hs & Hi). unfold get_listed_stock.
  rewrite outcome_bind, read_outcome, Ht. cbn [List.find rbind].
  change (default [] (tbl_columns <$> Some t)) with (tbl_columns t).
  apply mem_spec in Hd. apply mem_spec in Hs. apply mem_spec in Hi.
  rewrite Hd, Hs, Hi. by rewrite !outcome_bind.
Qed.

Lemma elem_of_status rows date x s :
  s ∈ ID <$> List.filter (status_is x) (List.filter (fun r => DateTime r <=? date) rows)
  ↔ ∃ r, r ∈ rows ∧ DateTime r ≤ date ∧ ID r = s ∧
         fields r !! col_status = Some (Num x).
Proof.
  rewrite list_elem_of_fmap. split.
  - intros (r & -> & Hr). apply elem_of_List_filter in Hr as [Hr Hx].
    apply elem_of_List_filter in Hr as [Hr Hd]. exists r.
    apply Z.leb_le in Hd. by apply bool_decide_eq_true in Hx.
  - intros (r & Hr & Hd & <- & Hx). exists r. split; [done|].
    apply elem_of_List_filter. split.
    + apply elem_of_List_filter. split; [done|]. by apply Z.leb_le.
    + by apply bool_decide_eq_true.
Qed.

(** X1.  On a listing table that has its columns, [get_listed_stock]
    returns, in ascending order and without repetition, exactly the
    securities that some record dated [date] or earlier lists and that no
    record dated [date] or earlier delists, wherever the two records stand
    relative to each other. *)
Theorem listed_stock_spec (self : reader) (t : table) (date : date) :
  listing_table self t →
  ∃ l, outcome (get_listed_stock self date) = OK l ∧
       Sorted string_le l ∧ NoDup l ∧
       ∀ s, s ∈ l ↔ recorded t date 1 s ∧ ¬ recorded t date 0 s.
Proof.
  intros Ht. exists (listed_on (tbl_rows t) date).
  split; [by apply get_listed_stock_outcome|]. unfold listed_on.
  split; [apply Sorted_merge_sort, _|]. split; [apply NoDup_sorted_set|].
  intros s. rewrite elem_of_sorted_set, elem_of_List_filter, negb_true_iff.
  rewrite elem_of_status. unfold recorded.
  assert (mem s (ID <$> List.filter (status_is 0)
                   (List.filter (fun r => DateTime r <=? date) (tbl_rows t))) = false
          ↔ ¬ ∃ r, r ∈ tbl_rows t ∧ DateTime r ≤ date ∧ ID r = s ∧
                   fields r !! col_status = Some (Num 0)) as ->; [|done].
  rewrite <- elem_of_status, <- mem_spec. by destruct (mem _ _).
Qed.

Lemma listed_stock_spec_witness :
  listing_table demo_listing demo_listing_table ∧
  ∃ l, outcome (get_listed_stock demo_listing 20230101) = OK l ∧
       ("A" ∈ l ↔ recorded demo_listing_table 20230101 1 "A"
                  ∧ ¬ recorded demo_listing_table 20230101 0 "A").
Proof.
  assert (listing_table demo_listing demo_listing_table) as Ht.
  { split; [reflexivity|]. split_and!; apply (bool_decide_unpack _); exact I. }
  split; [exact Ht|].
  destruct (listed_stock_spec demo_listing demo_listing_table 20230101 Ht)
    as (l & Hl & _ & _ & Hs).
  exists l. split; [exact Hl|]. apply Hs.
Defined.

(** X2.  [get_listed_stock] does not look ahead: records dated after
    [date] that are appended to the listing table do not change its
    answer. *)
Theorem listed_stock_no_look_ahead (self self' : reader) (t : table)
    (new : list row) (date : date) :
  listing_table self t →
  tables self' !! table_listing
    = Some {| tbl_columns := tbl_columns t; tbl_rows := tbl_rows t ++ new |} →
  Forall (fun r => date < DateTime r) new →
  outcome (get_listed_stock self' date) = outcome (get_listed_stock self date).
Proof.
  intros Ht Ht' Hnew. rewrite (get_listed_stock_outcome self t) by done.
  rewrite (get_listed_stock_outcome self'
             {| tbl_columns := tbl_columns t; tbl_rows := tbl_rows t ++ new |}).
  - unfold listed_on. cbn [tbl_rows]. rewrite filter_app_nil; [done|].
    eapply Forall_impl; [done|]. intros r Hr. simpl in *. lia.
  - destruct Ht as (_ & ? & ? & ?). by split.
Qed.

Lemma listed_stock_no_look_ahead_witness :
  outcome (get_listed_stock demo_listing 20211231)
  = outcome (get_listed_stock
       {| tables := {[ table_listing :=
            {| tbl_columns := [col_DateTime; col_ID; col_status];
               tbl_rows := [listing_record 20200101 "B" 1; listing_record 20200101 "A" 1;
                            listing_record 20210101 "B" 0] |} ]};
          calendar := []; stocks := [] |} 20211231).
Proof.
  eapply (listed_stock_no_look_ahead _ demo_listing
            {| tbl_columns := [col_DateTime; col_ID; col_status];
               tbl_rows := [listing_record 20200101 "B" 1; listing_record 20200101 "A" 1;
                            listing_record 20210101 "B" 0] |}
            [listing_record 20220101 "B" 1]).
  - split; [reflexivity|]. split_and!; apply (bool_decide_unpack _); exact I.
  - reflexivity.
  - repeat constructor.
Defined.

(** ** Conformance: the cells *)

Lemma assoc_zip_Some {K A} `{EqDecision K} (k : K) (ks : list K) (r : list A) :
  k ∈ ks → length r = length ks → is_Some (assoc k (zip ks r)).
Proof.
  revert r. induction ks as [|k' ks IH]; intros [|x r] Hk Hl; simpl in *;
    try done.
  - by apply elem_of_nil in Hk.
  - case_decide; [done|]. apply IH; [|lia].
    apply elem_of_cons in Hk as [->|Hk]; done.
Qed.

Lemma cell_is_Some df d c :
  rectangular df → d ∈ index df → c ∈ columns df → is_Some (cell df d c).
Proof.
  intros Hr Hd Hc. unfold cell.
  destruct (assoc d (body df)) as [r|] eqn:Ha.
  - simpl. apply assoc_zip_Some; [done|].
    apply assoc_Some_elem in Ha. unfold rectangular in Hr.
    rewrite Forall_forall in Hr. by apply (Hr (d, r)).
  - apply assoc_in in Hd as [? Hd]. congruence.
Qed.

Lemma content_outside df d c :
  d ∉ index df ∨ c ∉ columns df → content df d c = None.
Proof.
  unfold content. intros [Hd|Hc].
  - unfold cell. by rewrite assoc_not_in.
  - by rewrite cell_outside_columns.
Qed.

(** The cells of a frame after [reindex(target)]. *)
Lemma cell_reindex target df a d c :
  rectangular df → reindex target df = OK a →
  d ∈ target → c ∈ columns df →
  cell a d c = Some (content df d c).
Proof.
  intros Hr Ha Hd Hc. unfold content. unfold reindex in Ha.
  case_decide as Heq.
  { simplify_eq. by destruct (cell_is_Some a d c Hr Hd Hc) as [x ->]. }
  case_decide; [|done]. injection Ha as <-. unfold cell. cbn [body columns].
  rewrite (assoc_diag (fun d => default (replicate (length (columns df)) None)
                                  (assoc d (body df)))).
  rewrite decide_True by done. simpl.
  destruct (assoc d (body df)) as [r|] eqn:Hr'; simpl.
  - apply assoc_Some_elem in Hr'. unfold rectangular in Hr.
    rewrite Forall_forall in Hr. specialize (Hr _ Hr'). simpl in Hr.
    by destruct (assoc_zip_Some c (columns df) r Hc Hr) as [x ->].
  - rewrite assoc_zip_replicate. by rewrite decide_True.
Qed.

Lemma cell_reindex_columns_content target df q d c :
  rectangular df → reindex_columns target df = OK q →
  d ∈ index df → c ∈ target →
  cell q d c = Some (content df d c).
Proof.
  intros Hr Hq Hd Hc. unfold content.
  destruct (decide (columns df = target)) as [Heq|Hne].
  { unfold reindex_columns in Hq. rewrite decide_True in Hq by done.
    injection Hq as <-. rewrite <- Heq in Hc.
    by destruct (cell_is_Some df d c Hr Hd Hc) as [x ->]. }
  rewrite (cell_reindex_columns _ _ _ d c Hq Hne).
  unfold cell. apply assoc_in in Hd as [r ->]. simpl. by rewrite decide_True.
Qed.

Lemma rectangular_reindex_columns target df q :
  rectangular df → reindex_columns target df = OK q → rectangular q.
Proof.
  unfold reindex_columns, rectangular. intros Hr.
  repeat case_decide; intros ?; simplify_eq; [done|]. simpl.
  rewrite Forall_fmap. apply Forall_forall. intros [d r] _. simpl.
  by rewrite length_fmap.
Qed.




(** X4.  Conforming without forward fill is idempotent, with no condition
    on the calendar or on the frame: a result conformed again with the
    same bounds and universe comes back unchanged. *)
Theorem conform_plain_idempotent (self : reader) (df : Panel)
    (start_date end_date : option date) (stock_list : option (list string))
    (q : Panel) :
  _conform_df self df false start_date end_date stock_list = OK q →
  _conform_df self q false start_date end_date stock_list = OK q.
Proof.
  intros H.
  apply conform_steps in H as (dates & a & rows & Hd & Ha & Hr & Hq).
  injection Hr as <-. unfold resolved_window in Hd.
  apply index_reindex in Ha as [Hia _].
  apply index_reindex_columns in Hq as [Hiq Hcq].
  unfold _conform_df. rewrite Hd. cbn [rbind].
  rewrite <- Hia, <- Hiq, reindex_same. cbn [rbind].
  rewrite <- Hcq. apply reindex_columns_same.
Qed.

Lemma conform_plain_idempotent_witness :
  ∃ q, _conform_df demo_reader demo_panel false (Some 20240102) None None = OK q ∧
       _conform_df demo_reader q false (Some 20240102) None None = OK q.
Proof.
  eexists. split; [reflexivity|].
  apply (conform_plain_idempotent demo_reader demo_panel). reflexivity.
Defined.

(** *** Forward fill, cell by cell *)

Lemma col_val_nil cols c : col_val cols c [] = None.
Proof. unfold col_val. by destruct cols. Qed.

Lemma col_val_fill_row cols c above here :
  above = [] ∨ length above = length here →
  col_val cols c (fill_row above here)
  = fill1 (col_val cols c above) (col_val cols c here).
Proof.
  intros [->|Hl].
  { rewrite fill_row_nil, col_val_nil. by destruct (col_val cols c here). }
  unfold col_val. revert above here Hl.
  induction cols as [|c0 cols IH]; intros above here Hl.
  { by destruct above, here. }
  destruct here as [|h here], above as [|a above]; simpl in *; try done.
  case_decide; simpl; [by destruct h|]. apply IH. lia.
Qed.

Lemma foldl_fill1_None l : foldl fill1 None l = last_valid l.
Proof. done. Qed.

Lemma List_filter_nil {A} (f : A → bool) (l : list A) :
  Forall (fun x => f x = false) l → List.filter f l = [].
Proof. induction 1 as [|x l Hx _ IH]; simpl; [done|]. by rewrite Hx. Qed.

(** Down a column, the filled cell of a row is the last cell that is not
    missing among the rows up to it. *)
Lemma ffill_from_col cols c n d above (b : list (date * list (option value))) r' :
  StronglySorted Z.lt (b.*1) →
  Forall (fun r => length r.2 = n) b →
  above = [] ∨ length above = n →
  assoc d (ffill_from above b) = Some r' →
  col_val cols c r'
  = foldl fill1 (col_val cols c above)
      ((fun r => col_val cols c r.2) <$> List.filter (fun r => r.1 <=? d) b).
Proof.
  revert above. induction b as [|[d0 r0] b IH]; intros above Hs Hn Ha; [done|].
  rewrite fmap_cons in Hs. apply StronglySorted_cons in Hs as [Hlt Hs].
  apply Forall_cons in Hn as [Hr0 Hn]. simpl in Hr0.
  assert (above = [] ∨ length above = length r0) as Ha'.
  { destruct Ha as [->|Ha]; [by left|right; congruence]. }
  cbn [ffill_from assoc]. case_decide as Hd.
  - subst d0. intros [= <-]. cbn [List.filter fst]. rewrite Z.leb_refl.
    assert (List.filter (fun r : date * list (option value) => r.1 <=? d) b = []) as ->.
    { apply List_filter_nil. rewrite Forall_fmap in Hlt.
      eapply Forall_impl; [exact Hlt|]. intros [d1 r1] Hd1. simpl in *.
      apply Z.leb_gt. lia. }
    cbn. by apply col_val_fill_row.
  - intros Hr'. cbn [List.filter fst].
    assert (d ∈ b.*1) as Hin.
    { rewrite <- (fst_ffill_from (fill_row above r0)). by eapply assoc_Some_key. }
    rewrite Forall_forall in Hlt. specialize (Hlt d Hin). simpl in Hlt.
    assert ((d0 <=? d) = true) as -> by (apply Z.leb_le; lia).
    rewrite fmap_cons. cbn [foldl snd].
    rewrite <- col_val_fill_row by done.
    apply IH; [done|done| |done]. right. by rewrite length_fill_row.
Qed.

Lemma assoc_filter_key {A} (p : date → bool) (d : date) (b : list (date * A)) :
  p d = true → assoc d (List.filter (fun r => p r.1) b) = assoc d b.
Proof.
  intros Hp. induction b as [|[d0 r0] b IH]; [done|]. cbn [List.filter fst].
  destruct (p d0) eqn:Hd0; cbn [assoc]; case_decide; try done.
  subst. congruence.
Qed.

Lemma content_forward_fill a d c :
  rectangular a → StronglySorted Z.lt (index a) → d ∈ index a →
  content (forward_fill a) d c
  = last_valid ((fun d' => content a d' c)
                  <$> List.filter (fun d' => d' <=? d) (index a)).
Proof.
  intros Hr Hs Hd. unfold content at 1, cell. cbn [forward_fill body columns].
  assert (d ∈ (ffill_from [] (body a)).*1) as Hd' by (by rewrite fst_ffill_from).
  apply assoc_in in Hd' as [r' Hr']. rewrite Hr'. cbn.
  change (default None (assoc c (zip (columns a) r'))) with (col_val (columns a) c r').
  rewrite (ffill_from_col (columns a) c (length (columns a)) d [] (body a) r');
    [|done|done|by left|done].
  rewrite col_val_nil, foldl_fill1_None. f_equal.
  unfold index. rewrite <- (fst_filter (fun d' => d' <=? d)), <- list_fmap_compose.
  apply list_fmap_ext. intros _ [d0 r0] Hin%list_elem_of_lookup_2.
  apply elem_of_List_filter in Hin as [Hin _]. cbn.
  unfold content, cell. rewrite (assoc_NoDup d0 r0 (body a)); [done| |done].
  by apply strongly_NoDup.
Qed.

Lemma conform_ffill_content (self : reader) (df : Panel)
    (start_date end_date : option date) (stock_list : option (list string))
    (q : Panel) :
  ascending (calendar self) → rectangular df →
  _conform_df self df true start_date end_date stock_list = OK q →
  ∃ dates,
    resolved_window self df true start_date end_date = OK dates ∧
    ∀ d c, d ∈ index q → c ∈ columns q →
      cell q d c
      = Some (last_valid ((fun d' => content df d' c)
                            <$> List.filter (fun d' => d' <=? d) (all_but_last dates))).
Proof.
  intros Hc Hrect H.
  apply conform_steps in H as (dates & a & rows & Hd & Ha & Hr & Hq).
  exists dates. split; [done|]. intros d c Hdq Hcq.
  pose proof (window_strongly _ _ _ _ _ _ Hc Hd) as Hs.
  pose proof (rectangular_reindex _ _ _ Hrect Ha) as Hra.
  pose proof (index_reindex _ _ _ Ha) as [Hia Hca].
  assert (StronglySorted Z.lt (index a)) as Hsa.
  { rewrite Hia. by apply strongly_removelast. }
  assert (is_monotonic_increasing (index (forward_fill a)) = true) as Hm.
  { rewrite index_forward_fill. by apply strongly_monotonic. }
  pose proof (index_loc_from _ _ _ Hm Hr) as [Hir Hcr].
  pose proof (body_loc_from _ _ _ Hm Hr) as Hbr.
  pose proof (index_reindex_columns _ _ _ Hq) as [Hiq Hcq'].
  rewrite Hiq in Hdq. rewrite Hcq' in Hcq.
  assert (rectangular rows) as Hrr.
  { unfold rectangular. rewrite Hbr, Hcr. apply Forall_List_filter. simpl.
    by apply Forall_length_ffill_from. }
  rewrite (cell_reindex_columns_content _ _ _ d c Hrr Hq Hdq Hcq). f_equal.
  rewrite Hir in Hdq. apply elem_of_List_filter in Hdq as [Hdf Hnb].
  assert (content rows d c = content (forward_fill a) d c) as ->.
  { unfold content, cell. rewrite Hbr, Hcr.
    by rewrite (assoc_filter_key (not_before start_date)). }
  rewrite index_forward_fill in Hdf.
  rewrite content_forward_fill by done. rewrite Hia. f_equal.
  apply list_fmap_ext. intros _ d' Hd'%list_elem_of_lookup_2.
  apply elem_of_List_filter in Hd' as [Hd' _].
  destruct (decide (c ∈ columns df)) as [Hin|Hout].
  - unfold content at 1. by rewrite (cell_reindex _ _ _ d' c Hrect Ha Hd' Hin).
  - rewrite !content_outside; [done|by right|right; by rewrite Hca].
Qed.

Lemma filter_upto_snoc (W : list date) d :
  StronglySorted Z.lt W → d ∈ W →
  ∃ W', List.filter (fun d' => d' <=? d) W = W' ++ [d].
Proof.
  induction 1 as [|x W Hs IH Hx]; intros Hd; [by apply elem_of_nil in Hd|].
  simpl. destruct (decide (x = d)) as [->|Hne].
  - rewrite Z.leb_refl. exists []. simpl. f_equal. apply List_filter_nil.
    eapply Forall_impl; [exact Hx|]. intros y Hy. simpl in *. apply Z.leb_gt. lia.
  - apply elem_of_cons in Hd as [->|Hd]; [done|].
    destruct (IH Hd) as [W' ->]. rewrite Forall_forall in Hx.
    specialize (Hx d Hd). assert ((x <=? d) = true) as -> by (apply Z.leb_le; lia).
    by exists (x :: W').
Qed.

(** X5.  Conforming with forward fill on an ascending calendar: the cell
    of the result at a row [d] and a column [c] is the last cell of the
    frame under [c] that is not missing among the dates of [dates[:-1]]
    up to [d], counted from the first row of the frame and not from
    [start_date]; it is missing when there is none.  So a value the frame
    has at ([d], [c]) is never overwritten, no cell dated after [d] is
    used, and a row of the frame that is not on the calendar is not used
    either. *)
Theorem conform_ffill_cells (self : reader) (df : Panel)
    (start_date end_date : option date) (stock_list : option (list string))
    (q : Panel) :
  ascending (calendar self) → rectangular df →
  _conform_df self df true start_date end_date stock_list = OK q →
  ∃ dates,
    resolved_window self df true start_date end_date = OK dates ∧
    ∀ d c, d ∈ index q → c ∈ columns q →
      cell q d c
      = Some (last_valid ((fun d' => content df d' c)
                            <$> List.filter (fun d' => d' <=? d) (all_but_last dates))) ∧
      (∀ v, cell df d c = Some (Some v) → cell q d c = Some (Some v)).
Proof.
  intros Hc Hrect H.
  destruct (conform_ffill_content _ _ _ _ _ _ Hc Hrect H) as (dates & Hd & Hcells).
  exists dates. split; [done|]. intros d c Hdq Hcq.
  split; [by apply Hcells|]. intros v Hv. rewrite (Hcells d c Hdq Hcq). f_equal.
  destruct (conform_ffill_index _ _ _ _ _ _ Hc H) as (first & dates' & Hf & Hd' & Hi & _).
  assert (dates' = dates) as ->.
  { unfold resolved_window in Hd. rewrite Hf in Hd. cbn [rbind] in Hd.
    apply select_dates_OK in Hd. congruence. }
  rewrite Hi in Hdq. apply elem_of_List_filter in Hdq as [Hdw _].
  destruct (filter_upto_snoc (all_but_last dates) d) as [W' ->]; [|done|].
  { apply strongly_removelast. rewrite Hd'. by apply strongly_filter, ascending_strongly. }
  rewrite fmap_app. cbn [fmap list_fmap]. rewrite last_valid_snoc.
  - unfold content. by rewrite Hv.
  - unfold content. by rewrite Hv.
Qed.

Lemma conform_ffill_cells_witness :
  ascending (calendar demo_reader) ∧ rectangular demo_panel ∧
  cell demo_conformed 20240102 "A" = Some (Some (Num 10)).
Proof.
  assert (ascending (calendar demo_reader)) as Hasc by repeat constructor.
  assert (rectangular demo_panel) as Hrect by repeat constructor.
  split; [exact Hasc|]. split; [exact Hrect|].
  destruct (conform_ffill_cells demo_reader demo_panel (Some 20240102) None None
              demo_conformed Hasc Hrect eq_refl) as (dates & Hd & Hcells).
  injection Hd as <-.
  destruct (Hcells 20240102 "A") as [-> _];
    [apply (bool_decide_unpack _); exact I|apply (bool_decide_unpack _); exact I|].
  reflexivity.
Defined.

(** ** What is asked of the engine *)



Lemma silent_lift {A} (r : result A) : silent (lift r).
Proof. done. Qed.









(** ** [get_factor] end to end *)









(** ** [get_financial_factor] end to end *)





(** ** The order of the rows and of the loops *)

Lemma sorted_set_perm {A} `{EqDecision A} (R : relation A)
    `{∀ x y, Decision (R x y)} `{!Transitive R, !Total R, !AntiSymm (=) R}
    (l l' : list A) :
  l ≡ₚ l' → merge_sort R (remove_dups l) = merge_sort R (remove_dups l').
Proof.
  intros Hp. apply (Sorted_unique R); try apply Sorted_merge_sort; try apply _.
  rewrite !merge_sort_Permutation.
  apply NoDup_Permutation; try apply NoDup_remove_dups.
  intros x. by rewrite !elem_of_remove_dups, Hp.
Qed.

Lemma assoc_perm {K A} `{EqDecision K} (k : K) (l l' : list (K * A)) :
  NoDup (l.*1) → l ≡ₚ l' → assoc k l = assoc k l'.
Proof.
  intros Hnd Hp.
  assert (NoDup (l'.*1)) as Hnd' by (by rewrite <- Hp).
  destruct (assoc k l) as [a|] eqn:Ha.
  - symmetry. apply assoc_NoDup; [done|]. rewrite <- Hp. by apply assoc_Some_elem.
  - symmetry. apply assoc_not_in. rewrite <- Hp. intros Hin.
    apply assoc_in in Hin as [a Hin]. congruence.
Qed.

Lemma unstack_perm (s s' : list (date * string * option value)) :
  s ≡ₚ s' → unstack s = unstack s'.
Proof.
  intros Hp. unfold unstack.
  destruct (decide (NoDup (s.*1))) as [Hnd|Hnd].
  - rewrite decide_True by (by rewrite <- Hp). cbv zeta.
    rewrite (sorted_set_perm Z.le _ ((s'.*1).*1)) by (by rewrite Hp).
    rewrite (sorted_set_perm string_le _ ((s'.*1).*2)) by (by rewrite Hp).
    do 2 f_equal. apply list_fmap_ext. intros _ d _. f_equal.
    apply list_fmap_ext. intros _ c _. by rewrite (assoc_perm _ s s').
  - rewrite decide_False; [done|]. by rewrite <- Hp.
Qed.

(** X11.  On a table keyed by exactly (DateTime, ID), the order in which
    the engine returns the rows does not matter to [get_factor]: two
    stores that hold the same rows in different orders give the same
    panel, or fail with the same exception. *)
Theorem get_factor_row_order (self self' : reader) (table_name factor_name : string)
    (ffill : bool) (start_date end_date : option date)
    (stock_list : option (list string)) (t t' : table) :
  tables self !! lower table_name = Some t →
  tables self' !! lower table_name = Some t' →
  tbl_columns t' = tbl_columns t → tbl_rows t' ≡ₚ tbl_rows t →
  calendar self' = calendar self → stocks self' = stocks self →
  two_keyed t factor_name →
  outcome (get_factor self' table_name factor_name ffill start_date end_date stock_list)
  = outcome (get_factor self table_name factor_name ffill start_date end_date stock_list).
Proof.
  intros Ht Ht' Hcols Hrows Hcal Hstocks Hk.
  assert (two_keyed t' factor_name) as Hk'.
  { unfold two_keyed. by rewrite Hcols. }
  rewrite (get_factor_two_keyed self _ _ _ _ _ _ t Ht Hk).
  rewrite (get_factor_two_keyed self' _ _ _ _ _ _ t' Ht' Hk').
  rewrite (unstack_perm (long_series factor_name (tbl_rows t'))
             (long_series factor_name (tbl_rows t))); last first.
  { unfold long_series. by rewrite Hrows. }
  destruct (unstack _) as [p|e]; cbn [rbind]; [|done].
  unfold _conform_df, universe. by rewrite Hcal, Hstocks.
Qed.

Lemma get_factor_row_order_witness :
  outcome (get_factor (demo_prices [quote 20240103 "A" 30; quote 20240101 "A" 10])
             "Prices" "close" true None None None)
  = outcome (get_factor (demo_prices [quote 20240101 "A" 10; quote 20240103 "A" 30])
               "Prices" "close" true None None None).
Proof.
  apply (get_factor_row_order _ _ "Prices" "close" true None None None
           {| tbl_columns := ["DateTime"; "ID"; "close"];
              tbl_rows := [quote 20240101 "A" 10; quote 20240103 "A" 30] |}
           {| tbl_columns := ["DateTime"; "ID"; "close"];
              tbl_rows := [quote 20240103 "A" 30; quote 20240101 "A" 10] |}).
  - reflexivity.
  - reflexivity.
  - reflexivity.
  - apply perm_swap.
  - reflexivity.
  - reflexivity.
  - split_and!; apply (bool_decide_unpack _); exact I.
Defined.

(** X12.  The outer loop of [get_financial_factor] iterates a Python set,
    in no particular order.  Whatever order it takes, the unstacked frame
    is the same: the entries stored for the securities in any other order
    unstack to the frame (or to the failure) of the order [all_secs]
    fixes. *)
Theorem loop_order_immaterial (factor_name : string)
    (agg_func : list entry → option value) (data : list row)
    (stock_list : option (list string)) (secs : list string) :
  secs ≡ₚ all_secs data stock_list →
  unstack (sec_id ← secs;
           (fun date => (date, sec_id, output_data factor_name agg_func data sec_id date))
             <$> as_of_dates (id_data data sec_id))
  = unstack (storage factor_name agg_func data stock_list).
Proof. intros Hp. apply unstack_perm. unfold storage. by rewrite Hp. Qed.

Lemma loop_order_immaterial_witness :
  unstack (sec_id ← ["Y"; "X"];
           (fun date => (date, sec_id,
                         output_data "profit" latest
                           (example_reports ++ [report_of "Y" 20240215 20231231 3])
                           sec_id date))
             <$> as_of_dates
                   (id_data (example_reports ++ [report_of "Y" 20240215 20231231 3]) sec_id))
  = unstack (storage "profit" latest
               (example_reports ++ [report_of "Y" 20240215 20231231 3]) None).
Proof.
  apply (loop_order_immaterial "profit" latest
           (example_reports ++ [report_of "Y" 20240215 20231231 3]) None ["Y"; "X"]).
  apply perm_swap.
Defined.

(** ** [get_industry]: the guard, the translation and the cells *)





Lemma get_industry_outcome INDUSTRY_LEVEL translation self provider level top
    start_date end_date stock_list t :
  INDUSTRY_LEVEL !! provider = Some top → 0 < level < top →
  tables self !! industry_table_name provider = Some t → industry_table t →
  outcome (get_industry INDUSTRY_LEVEL translation self provider level
             start_date end_date stock_list)
  = let+ tr := outcome (new_translation translation (industry_table_name provider) level) in
    let+ u := unstack ((fun '(k, c) => (k, map_cell tr c))
                         <$> long_series col_industry (tbl_rows t)) in
    _conform_df self u true start_date end_date stock_list.
Proof.
  intros Hp Hl Ht (Hd & Hi & Hn). unfold get_industry.
  rewrite outcome_bind, (check_level_outcome _ _ _ top Hp).
  assert ((0 <? level) && (level <=? top) = true) as ->.
  { apply andb_true_iff. split; [apply Z.ltb_lt|apply Z.leb_le]; lia. }
  cbn [rbind]. fold (industry_table_name provider).
  rewrite outcome_bind, read_outcome, Ht.
  rewrite find_none_subset; last first.
  { intros c Hc. apply elem_of_app in Hc as [Hc|Hc%list_elem_of_singleton]; [|by subst].
    apply elem_of_cons in Hc as [->|Hc]; [done|].
    apply elem_of_cons in Hc as [->|Hc]; [done|]. by apply elem_of_nil in Hc. }
  cbn [rbind]. rewrite Hp. rewrite decide_True by (intros [= ?]; lia).
  rewrite outcome_bind.
  destruct (outcome (new_translation _ _ _)) as [tr|e]; cbn [rbind]; [|done].
  rewrite outcome_bind, outcome_lift.
  destruct (unstack _) as [u|e]; cbn [rbind]; [|done].
  by rewrite outcome_lift.
Qed.

(** X14.  Below the provider's own level the translation file is
    consulted for every category it lists, not only for those the table
    uses: when the file has no entry for the table, [get_industry] raises
    [KeyError] on the table name, and when a single category of the file
    lacks the key of the requested level, it raises [KeyError] on that
    key, whatever the table holds. *)
Theorem incomplete_translation_raises (INDUSTRY_LEVEL : gmap string Z)
    (translation : gmap string (gmap string (gmap string string)))
    (self : reader) (provider : string) (level top : Z)
    (start_date end_date : option date) (stock_list : option (list string))
    (t : table) :
  INDUSTRY_LEVEL !! provider = Some top → 0 < level < top →
  tables self !! industry_table_name provider = Some t → industry_table t →
  let run := outcome (get_industry INDUSTRY_LEVEL translation self provider level
                        start_date end_date stock_list) in
  (translation !! industry_table_name provider = None →
     run = Raise (KeyError (industry_table_name provider))) ∧
  (∀ categories name levels,
     translation !! industry_table_name provider = Some categories →
     categories !! name = Some levels → levels !! level_key level = None →
     run = Raise (KeyError (level_key level))).
Proof.
  intros Hp Hl Ht Hk run. unfold run.
  rewrite (get_industry_outcome _ _ _ _ _ top _ _ _ t Hp Hl Ht Hk).
  unfold new_translation. fold (level_key level). split.
  - by intros ->.
  - intros categories name levels -> Hn Hlev. rewrite decide_False; [done|].
    intros Hall. specialize (Hall name levels Hn). simpl in Hall.
    rewrite Hlev in Hall. by destruct Hall.
Qed.

Lemma incomplete_translation_raises_witness :
  outcome (get_industry {[ "P" := 3 ]}
             {[ "P行业" := {[ "steel" := {[ "level_1" := "metals" ]};
                              "coal" := {[ "level_2" := "energy" ]} ]} ]}
             demo_sectors "P" 1 None None None)
  = Raise (KeyError "level_1").
Proof.
  refine (proj2 (incomplete_translation_raises {[ "P" := 3 ]} _ demo_sectors "P" 1 3
                   None None None demo_sector_table _ _ _ _)
            _ "coal" {[ "level_2" := "energy" ]} _ _ _).
  - reflexivity.
  - lia.
  - reflexivity.
  - split_and!; apply (bool_decide_unpack _); exact I.
  - reflexivity.
  - reflexivity.
  - reflexivity.
Defined.





(** ** [get_financial_factor]: when it succeeds, and on what *)


(** X16.  [get_financial_factor] succeeds only on a table that has the
    factor and all three key columns DateTime, ID and 报告期, only when the
    rows left by the yearly filter name a requested security, and only
    when the calendar window resolves. *)
Theorem financial_success_requires (factor_name : string)
    (agg_func : list entry → option value) (self : reader) (table_name : string)
    (start_date end_date : option date) (stock_list : option (list string))
    (yearly : bool) (p : Panel) :
  outcome (get_financial_factor factor_name agg_func self table_name
             start_date end_date stock_list yearly) = OK p →
  ∃ t, tables self !! lower table_name = Some t ∧
       financial_table t factor_name ∧
       all_secs (yearly_rows yearly (tbl_rows t)) stock_list ≠ [] ∧
       ∃ dates, select_dates (calendar self) start_date end_date = OK dates.
Proof.
  rewrite get_financial_factor_outcome. unfold financial_outcome.
  destruct (tables self !! lower table_name) as [t|]; [|done].
  set (pk := List.filter (fun it => mem it (tbl_columns t)) canonical_keys).
  assert (∀ c, mem c pk = true → c ∈ tbl_columns t) as Hpk.
  { intros c Hc%mem_spec. apply elem_of_List_filter in Hc as [_ Hc]. by apply mem_spec. }
  destruct (mem factor_name (tbl_columns t)) eqn:Hf; [|done]. cbn [negb].
  destruct (List.find _ _); [done|].
  destruct (yearly && negb (mem col_report_period pk)); [done|].
  destruct (mem col_ID pk) eqn:Hi; [|done]. cbn [negb].
  destruct (all_secs _ stock_list) as [|s0 secs] eqn:Hs; [done|].
  destruct (mem col_DateTime pk) eqn:Hd; [|done]. cbn [negb].
  destruct (mem col_report_period pk) eqn:Hr; [|done]. cbn [negb rbind].
  intros H. exists t. split; [done|]. split.
  { split_and!; [by apply mem_spec|by apply Hpk..]. }
  split; [by intros Hn; rewrite Hn in Hs|].
  apply rbind_OK in H as (st & _ & H). apply rbind_OK in H as (u & _ & H).
  unfold _conform_df in H.
  destruct (select_dates _ _ _) as [dates|]; [by exists dates|done].
Qed.

Lemma financial_success_requires_witness :
  ∃ t, tables demo_income !! lower "Income" = Some t ∧
       financial_table t "profit".
Proof.
  destruct (outcome (get_financial_factor "profit" latest demo_income "Income"
                       None None None true)) as [p|e] eqn:Hp; [|by vm_compute in Hp].
  destruct (financial_success_requires "profit" latest demo_income "Income"
              None None None true p Hp) as (t & Ht & Hk & _).
  by exists t.
Defined.

(** ** The featured columns *)

Lemma featured_cols_small (ordered_index : list string) (n : Z) :
  0 < n → 2 * n ≤ Z.of_nat (length ordered_index) →
  featured_cols ordered_index n
  = take (Z.to_nat n) ordered_index
    ++ drop (length ordered_index - Z.to_nat n) ordered_index.
Proof.
  intros Hn Hl. unfold featured_cols, slice_to, slice_from, slice_bound.
  assert ((n <? 0) = false) as -> by (apply Z.ltb_ge; lia).
  assert ((- n <? 0) = true) as -> by (apply Z.ltb_lt; lia).
  f_equal; f_equal; lia.
Qed.

(** X17.  The columns [featured_data] selects from the candidates ordered
    by return.  They are always candidates.  With [n = 0] they are not
    none of them but all of them.  With [0 < n] and at least [2 n]
    candidates they are the [n] first and the [n] last, [2 n] different
    labels; with fewer than [2 n] candidates the two ends overlap and
    some label is selected twice. *)
Theorem featured_cols_spec (ordered_index : list string) (n : Z) :
  NoDup ordered_index →
  (∀ x, x ∈ featured_cols ordered_index n → x ∈ ordered_index) ∧
  (n = 0 → featured_cols ordered_index n = ordered_index) ∧
  (0 < n → 2 * n ≤ Z.of_nat (length ordered_index) →
     featured_cols ordered_index n
     = take (Z.to_nat n) ordered_index
       ++ drop (length ordered_index - Z.to_nat n) ordered_index ∧
     length (featured_cols ordered_index n) = Z.to_nat (2 * n) ∧
     NoDup (featured_cols ordered_index n)) ∧
  (0 < n → Z.of_nat (length ordered_index) < 2 * n → ordered_index ≠ [] →
     ¬ NoDup (featured_cols ordered_index n)).
Proof.
  intros Hnd. split_and!.
  - intros x. unfold featured_cols, slice_to, slice_from.
    intros [Hx|Hx]%elem_of_app.
    + by apply (subseteq_take (slice_bound ordered_index n)).
    + by apply (subseteq_drop (slice_bound ordered_index (- n))).
  - intros ->. unfold featured_cols, slice_to, slice_from, slice_bound.
    change (- 0) with 0. change (0 <? 0) with false. cbv iota.
    assert (Z.to_nat (Z.min 0 (Z.of_nat (length ordered_index))) = 0%nat) as -> by lia.
    done.
  - intros Hn Hl. rewrite featured_cols_small by done. split_and!.
    + done.
    + rewrite length_app, length_take, length_drop. lia.
    + apply (sublist_NoDup _ ordered_index); [done|].
      replace (length ordered_index - Z.to_nat n)%nat
        with (Z.to_nat n + (length ordered_index - 2 * Z.to_nat n))%nat by lia.
      rewrite <- drop_drop.
      set (front := take (Z.to_nat n) ordered_index).
      set (back := drop (Z.to_nat n) ordered_index).
      assert (ordered_index = front ++ back) as Heq
        by (symmetry; apply take_drop).
      rewrite Heq at 2. apply sublist_app; [done|]. apply sublist_drop.
  - intros Hn Hl Hne Hcols. unfold featured_cols, slice_to, slice_from in Hcols.
    apply NoDup_app in Hcols as (_ & Hdisj & _).
    set (i := slice_bound ordered_index (- n)) in *.
    assert (i < slice_bound ordered_index n ∧ i < length ordered_index)%nat as [Hi Hil].
    { unfold i, slice_bound.
      assert ((n <? 0) = false) as -> by (apply Z.ltb_ge; lia).
      assert ((- n <? 0) = true) as -> by (apply Z.ltb_lt; lia).
      destruct ordered_index; [done|]. simpl length in *. lia. }
    destruct (lookup_lt_is_Some_2 ordered_index i Hil) as [x Hx].
    apply (Hdisj x).
    + apply elem_of_take. by exists i.
    + apply list_elem_of_lookup. exists 0%nat. rewrite lookup_drop.
      by rewrite Nat.add_0_r.
Qed.

Lemma featured_cols_spec_witness :
  NoDup ["a"; "b"; "c"; "d"; "e"] ∧
  featured_cols ["a"; "b"; "c"; "d"; "e"] 0 = ["a"; "b"; "c"; "d"; "e"] ∧
  NoDup (featured_cols ["a"; "b"; "c"; "d"; "e"] 2) ∧
  ¬ NoDup (featured_cols ["a"; "b"; "c"; "d"; "e"] 3).
Proof.
  assert (NoDup ["a"; "b"; "c"; "d"; "e"]) as Hnd.
  { apply (bool_decide_unpack _). exact I. }
  destruct (featured_cols_spec ["a"; "b"; "c"; "d"; "e"] 0 Hnd) as (_ & H0 & _ & _).
  destruct (featured_cols_spec ["a"; "b"; "c"; "d"; "e"] 2 Hnd) as (_ & _ & H2 & _).
  destruct (featured_cols_spec ["a"; "b"; "c"; "d"; "e"] 3 Hnd) as (_ & _ & _ & H3).
  split; [exact Hnd|]. split; [by apply H0|]. split.
  - apply H2; simpl; lia.
  - apply H3; [lia|simpl; lia|done].
Defined.

(** ** The industries a summary mentions *)

Lemma slice_strip (name suffix : list Z) :
  length suffix = 4%nat → slice 2 (-4) (shenwan ++ name ++ suffix) = name.
Proof.
  intros Hs. unfold slice, slice_bound.
  change (-4 <? 0) with true. change (2 <? 0) with false. cbv iota.
  rewrite !length_app, Hs. simpl (length shenwan).
  replace (Z.to_nat (Z.max 0 (Z.of_nat (2 + (length name + 4)) + -4)))
    with (length (shenwan ++ name)) by (rewrite length_app; simpl; lia).
  rewrite (app_assoc shenwan name suffix), take_app_length.
  replace (Z.to_nat (Z.min 2 (Z.of_nat (2 + (length name + 4))))) with (length shenwan)
    by (simpl; lia).
  by rewrite drop_app_length.
Qed.

Lemma startswith_spec p it : startswith p it = true ↔ ∃ rest, it = p ++ rest.
Proof.
  unfold startswith. rewrite bool_decide_eq_true. split.
  - intros H. exists (drop (length p) it). by rewrite <- H at 1; rewrite take_drop.
  - intros [rest ->]. apply take_app_length.
Qed.

(** X18.  The names [summary] prints are decoded from the cached
    tickers.  A cached ticker made of '申万', a name and four more
    characters yields the name, whatever the four characters are.
    Conversely every name printed comes from a cached ticker that starts
    with '申万': what follows the prefix is the name and at most four more
    characters, exactly four unless the name is empty. *)
Theorem mentioned_industry_spec (industry_cache : list (list Z)) :
  (∀ name suffix, length suffix = 4%nat →
     shenwan ++ name ++ suffix ∈ industry_cache →
     name ∈ mentioned_industry industry_cache) ∧
  (∀ name, name ∈ mentioned_industry industry_cache →
     ∃ suffix, shenwan ++ name ++ suffix ∈ industry_cache ∧
               (length suffix ≤ 4)%nat ∧ (name ≠ [] → length suffix = 4%nat)).
Proof.
  split.
  - intros name suffix Hs Hin. unfold mentioned_industry.
    apply list_elem_of_fmap. exists (shenwan ++ name ++ suffix).
    split; [by rewrite slice_strip|].
    apply elem_of_List_filter. split; [by apply elem_of_remove_dups|].
    apply startswith_spec. by eexists.
  - intros name Hin. unfold mentioned_industry in Hin.
    apply list_elem_of_fmap in Hin as (it & -> & Hin).
    apply elem_of_List_filter in Hin as [Hin Hsw].
    rewrite elem_of_remove_dups in Hin. apply startswith_spec in Hsw as [rest ->].
    destruct (decide (4 ≤ length rest)%nat) as [Hl|Hl].
    + exists (drop (length rest - 4) rest).
      rewrite <- (take_drop (length rest - 4) rest) at 1.
      rewrite (slice_strip (take (length rest - 4) rest) (drop (length rest - 4) rest))
        by (rewrite length_drop; lia).
      rewrite take_drop. split; [done|]. rewrite length_drop. split; [lia|].
      intros _. lia.
    + exists rest.
      assert (slice 2 (-4) (shenwan ++ rest) = []) as ->.
      { unfold slice, slice_bound.
        change (-4 <? 0) with true. change (2 <? 0) with false. cbv iota.
        apply length_zero_iff_nil. rewrite length_drop, length_take, length_app.
        simpl (length shenwan). lia. }
      split; [done|]. split; [lia|done].
Qed.

Lemma mentioned_industry_spec_witness :
  [1; 2; 3] ∈ mentioned_industry [[20840; 46]; shenwan ++ [1; 2; 3] ++ [46; 73; 78; 68]].
Proof.
  apply (proj1 (mentioned_industry_spec
                  [[20840; 46]; shenwan ++ [1; 2; 3] ++ [46; 73; 78; 68]])
           [1; 2; 3] [46; 73; 78; 68]).
  - reflexivity.
  - apply (bool_decide_unpack _). exact I.
Defined.

